(** * Energy-aware rover scheduling: a shallow embedding of the Python code

    Models of [src/models/rover_config.py], [src/models/energy_model.py],
    [src/sim/simulate_mission.py] and [src/simple_validation.py].

    Python floats are modelled as exact numbers: the scheduling and
    benchmarking code, which only adds, multiplies and divides, over [Q]
    (so that every definition there computes), and the physical model,
    which uses [sin], [cos] and [sqrt], over [R].  A Python exception is
    [None] of an [option]. *)

From Stdlib Require Import ZArith QArith Qabs Lqa String List Bool Sorted Permutation Lia.
From Stdlib Require Import Reals Lra Qreals.
Import ListNotations.

(** Linear arithmetic over [Q] and over [R]. *)
Ltac qlra := Lqa.lra.
Ltac rlra := Lra.lra.

Open Scope Q_scope.

(** Python's [max(a, b)]: the first argument unless the second is larger. *)
Definition pymax (a b : Q) : Q := if Qlt_le_dec a b then b else a.


(** ** Python's stable [sorted] / [list.sort] with a key

    [sorted(xs, key=f)] computes every key once, left to right, and then
    sorts the decorated list stably by the key.  Any stable sort gives the
    same result; this one inserts each element in front of the first
    element whose key is not smaller. *)
Section PySort.
Context {A : Type}.

Fixpoint insert_by_key (x : Q * A) (l : list (Q * A)) : list (Q * A) :=
  match l with
  | [] => [x]
  | y :: l' => if Qle_bool (fst x) (fst y) then x :: l else y :: insert_by_key x l'
  end.

Fixpoint sort_by_key (l : list (Q * A)) : list (Q * A) :=
  match l with
  | [] => []
  | x :: l' => insert_by_key x (sort_by_key l')
  end.

(** Python's [sorted(xs, key=f)] for a key that cannot fail. *)
Definition py_sorted (f : A -> Q) (xs : list A) : list A :=
  map snd (sort_by_key (map (fun x => (f x, x)) xs)).

(** Python's [sorted(xs, key=f, reverse=True)]: CPython reverses the
    list, sorts it stably in ascending order and reverses the result, so
    that elements with equal keys keep their input order. *)
Definition py_sorted_rev (f : A -> Q) (xs : list A) : list A :=
  rev (py_sorted f (rev xs)).
End PySort.

(** Python's [[f(x) for x in xs]] when [f] may raise. *)
Fixpoint map_option {A B : Type} (f : A -> option B) (xs : list A) : option (list B) :=
  match xs with
  | [] => Some []
  | x :: xs' =>
      match f x with
      | None => None
      | Some y => match map_option f xs' with None => None | Some ys => Some (y :: ys) end
      end
  end.

(** ** [RoverConfig] (src/models/rover_config.py) *)
Module RoverConfig.

Definition BATTERY_CAPACITY : Q := 42.24.
Definition ENERGY_RESERVE_RATIO : Q := 0.20.
Definition CRITICAL_ENERGY_THRESHOLD : Q := 0.10.

(** [TASK_POWER], the task type to power (W) dictionary. *)
Definition TASK_POWER : list (string * Q) :=
  [("navigation", 50.0); ("sample_collection", 80.0); ("drilling", 120.0);
   ("imaging", 30.0); ("spectrometry", 45.0); ("communication", 25.0);
   ("idle", 10.0)]%string.

(** [get_available_energy] *)
Definition get_available_energy (current_battery_level : Q) : Q :=
  let total_energy := BATTERY_CAPACITY * current_battery_level in
  let reserve_energy := BATTERY_CAPACITY * ENERGY_RESERVE_RATIO in
  pymax 0 (total_energy - reserve_energy).

(** [is_critical_energy] *)
Definition is_critical_energy (current_battery_level : Q) : bool :=
  Qle_bool current_battery_level CRITICAL_ENERGY_THRESHOLD.

End RoverConfig.

(** Dictionary lookup [d[k]] / [k in d] on an association list. *)
Fixpoint lookup (k : string) (d : list (string * Q)) : option Q :=
  match d with
  | [] => None
  | (k', v) :: d' => if String.eqb k k' then Some v else lookup k d'
  end.

(** [EnergyModel.calculate_task_energy]: [None] is the [ValueError]
    raised for an unknown task type. *)
Definition calculate_task_energy (task_type : string) (duration_hours : Q) : option Q :=
  match lookup task_type RoverConfig.TASK_POWER with
  | None => None
  | Some power_watts => Some (power_watts * duration_hours / 1000)
  end.

(** ** The mission simulator (src/sim/simulate_mission.py) *)
Module Mission.

(** [Task], with its mutable flags and cached energy cost. *)
Record Task := mkTask {
  task_id : string;
  task_type : string;
  duration_hours : Q;
  urgency : Q;
  reward : Q;
  completed : bool;
  deferred : bool;
  energy_cost : Q
}.

(** [Task.__init__]: flags cleared, energy cost [0.0]. *)
Definition new_task (id ty : string) (d u r : Q) : Task :=
  mkTask id ty d u r false false 0.

Definition set_deferred (t : Task) : Task :=
  mkTask (task_id t) (task_type t) (duration_hours t) (urgency t) (reward t)
    (completed t) true (energy_cost t).

Definition set_completed (t : Task) : Task :=
  mkTask (task_id t) (task_type t) (duration_hours t) (urgency t) (reward t)
    true (deferred t) (energy_cost t).

Definition set_energy_cost (t : Task) (e : Q) : Task :=
  mkTask (task_id t) (task_type t) (duration_hours t) (urgency t) (reward t)
    (completed t) (deferred t) e.

Record LogEntry := mkLog {
  log_task_id : string;
  log_energy_consumed_kwh : Q;
  log_battery_level_after : Q
}.

(** The mission state of a [MissionSimulator]. *)
Record MState := mkState {
  current_battery_level : Q;
  completed_tasks : list Task;
  deferred_tasks : list Task;
  mission_log : list LogEntry
}.

(** Cost function weights. *)
Definition lambda1 : Q := 1.0.
Definition lambda2 : Q := 0.5.
Definition lambda3 : Q := -2.0.

(** [calculate_task_priority]: the key, and the task with its energy
    cost cached. *)
Definition calculate_task_priority (task : Task) : option (Q * Task) :=
  match calculate_task_energy (task_type task) (duration_hours task) with
  | None => None
  | Some energy_cost =>
      let cost := lambda1 * energy_cost
                  + lambda2 * (1 / pymax (urgency task) 0.1)
                  + lambda3 * reward task in
      Some (cost, set_energy_cost task energy_cost)
  end.

(** [prioritize_tasks]: [sorted(tasks, key=self.calculate_task_priority)];
    the key function also caches each task's energy cost. *)
Definition prioritize_tasks (tasks : list Task) : option (list Task) :=
  match map_option calculate_task_priority tasks with
  | None => None
  | Some keyed => Some (map snd (sort_by_key keyed))
  end.

(** [can_execute_task] *)
Definition can_execute_task (st : MState) (task : Task) : bool :=
  if RoverConfig.is_critical_energy (current_battery_level st) then false
  else
    let available_energy := RoverConfig.get_available_energy (current_battery_level st) in
    Qle_bool (energy_cost task) available_energy.

(** [execute_task]: the new state, the task with its flags updated, and
    the returned boolean. *)
Definition execute_task (st : MState) (task : Task) : MState * Task * bool :=
  if negb (can_execute_task st task) then
    let task' := set_deferred task in
    (mkState (current_battery_level st) (completed_tasks st)
       (deferred_tasks st ++ [task']) (mission_log st), task', false)
  else
    let energy_consumed := energy_cost task in
    let energy_fraction := energy_consumed / RoverConfig.BATTERY_CAPACITY in
    let level := current_battery_level st - energy_fraction in
    let task' := set_completed task in
    (mkState level (completed_tasks st ++ [task']) (deferred_tasks st)
       (mission_log st ++ [mkLog (task_id task) energy_consumed level]), task', true).

Definition not_processed (t : Task) : bool := negb (completed t) && negb (deferred t).

(** The [for task in prioritized_tasks] loop of [run_mission_simulation].
    [done] are the tasks already visited (with their flags as updated),
    [rest] those still to visit; the result is the final state and the
    prioritized list with every task's final flags.  On critical energy
    every task of the prioritized list that is neither completed nor
    deferred is deferred, and the loop breaks. *)
Fixpoint mission_loop (st : MState) (done rest : list Task) : MState * list Task :=
  match rest with
  | [] => (st, done)
  | task :: rest' =>
      if RoverConfig.is_critical_energy (current_battery_level st) then
        let prioritized := done ++ rest in
        let remaining_tasks := filter not_processed prioritized in
        (mkState (current_battery_level st) (completed_tasks st)
           (deferred_tasks st ++ map set_deferred remaining_tasks) (mission_log st),
         map (fun t => if not_processed t then set_deferred t else t) prioritized)
      else
        let '(st', task', _) := execute_task st task in
        mission_loop st' (done ++ [task']) rest'
  end.

(** The states at which the loop of [run_mission_simulation] evaluates
    [self.config.is_critical_energy(self.current_battery_level)], one per
    iteration, in order; the last one is the state at which the loop
    breaks, if it does. *)
Fixpoint mission_loop_checks (st : MState) (rest : list Task) : list MState :=
  match rest with
  | [] => []
  | task :: rest' =>
      if RoverConfig.is_critical_energy (current_battery_level st) then [st]
      else
        let '(st', _, _) := execute_task st task in
        st :: mission_loop_checks st' rest'
  end.

(** Visiting tasks with [execute_task] only, as the loop does while the
    battery is not critical: the state reached and the visited tasks. *)
Fixpoint exec_run (st : MState) (l : list Task) : MState * list Task :=
  match l with
  | [] => (st, [])
  | task :: l' =>
      let '(st', task', _) := execute_task st task in
      let '(st'', l'') := exec_run st' l' in
      (st'', task' :: l'')
  end.

Record MissionSummary := mkSummary {
  total_tasks : nat;
  total_completed : nat;
  total_deferred : nat;
  completion_rate : Q;
  final_battery_level : Q;
  total_energy_consumed_kwh : Q;
  task_energy_kwh : Q
}.

Definition sumQ (l : list Q) : Q := fold_left Qplus l 0.

(** [run_mission_simulation].  [traversal_energy] is [None] when no terrain
    file is given and otherwise the [total_energy_kwh] computed by
    [simulate_terrain_traversal]; [None] as result is a raised exception. *)
Definition run_mission_simulation (tasks : list Task) (traversal_energy : option Q)
  : option (MissionSummary * MState * list Task) :=
  let st0 := mkState 1.0 [] [] [] in
  let st1 := match traversal_energy with
             | None => st0
             | Some total_energy =>
                 mkState (1.0 - total_energy / RoverConfig.BATTERY_CAPACITY) [] [] []
             end in
  match prioritize_tasks tasks with
  | None => None
  | Some prioritized_tasks =>
      let '(st, final) := mission_loop st1 [] prioritized_tasks in
      let n := length tasks in
      let summary :=
        mkSummary n (length (completed_tasks st)) (length (deferred_tasks st))
          (match n with O => 0 | _ => inject_Z (Z.of_nat (length (completed_tasks st))) / inject_Z (Z.of_nat n) end)
          (current_battery_level st)
          ((1.0 - current_battery_level st) * RoverConfig.BATTERY_CAPACITY)
          (sumQ (map energy_cost (completed_tasks st))) in
      Some (summary, st, final)
  end.

End Mission.

(** ** The physical energy model (src/models/energy_model.py), over [R] *)
Module EnergyModel.
Local Open Scope R_scope.

(** The [RoverConfig] constants it reads. *)
Definition GRAVITY_MARS : R := 3.71.
Definition MASS : R := 899.0.
Definition ROLLING_RESISTANCE_COEFF : R := 0.15.
Definition MOTOR_EFFICIENCY : R := 0.85.
Definition DRIVETRAIN_EFFICIENCY : R := 0.90.

(** [math.radians] *)
Definition radians (x : R) : R := x * PI / 180.

(** [mass=None] falls back to [RoverConfig.MASS]. *)
Definition mass_or_default (mass : option R) : R :=
  match mass with Some m => m | None => MASS end.

(** [calculate_slope_force] *)
Definition calculate_slope_force (slope_degrees : R) (mass : option R) : R :=
  let m := mass_or_default mass in
  let slope_radians := radians slope_degrees in
  m * GRAVITY_MARS * sin slope_radians.

(** [calculate_rolling_resistance] *)
Definition calculate_rolling_resistance (mass : option R) (slope_degrees : R) : R :=
  let m := mass_or_default mass in
  let slope_radians := radians slope_degrees in
  let normal_force := m * GRAVITY_MARS * cos slope_radians in
  ROLLING_RESISTANCE_COEFF * normal_force.

(** [calculate_roughness_penalty] *)
Definition calculate_roughness_penalty (roughness velocity : R) : R :=
  roughness * velocity * 50.0.

(** [calculate_power_consumption] *)
Definition calculate_power_consumption (slope_degrees velocity roughness : R)
  (mass : option R) : R :=
  let slope_force := calculate_slope_force slope_degrees mass in
  let rolling_resistance := calculate_rolling_resistance mass slope_degrees in
  let total_force := Rabs slope_force + rolling_resistance in
  let mechanical_power := total_force * velocity in
  let roughness_penalty := calculate_roughness_penalty roughness velocity in
  (mechanical_power + roughness_penalty) / (MOTOR_EFFICIENCY * DRIVETRAIN_EFFICIENCY).

(** The dictionary returned by [calculate_energy_consumption]. *)
Record EnergyBreakdown := mkBreakdown {
  distance_m : R;
  time_hours : R;
  power_watts : R;
  energy_kwh : R;
  slope_degrees_of : R;
  velocity_ms : R;
  roughness_of : R
}.

(** [calculate_energy_consumption]: [None] is the [ValueError] for a
    non-positive velocity. *)
Definition calculate_energy_consumption (distance slope_degrees velocity roughness : R)
  (mass : option R) : option EnergyBreakdown :=
  if Rle_dec velocity 0 then None
  else
    let time_hours := distance / (velocity * 3600) in
    let power_watts := calculate_power_consumption slope_degrees velocity roughness mass in
    let energy_kwh := power_watts * time_hours / 1000 in
    Some (mkBreakdown distance time_hours power_watts energy_kwh
            slope_degrees velocity roughness).

End EnergyModel.

(** ** Effect sizes (src/simple_validation.py), over [R] *)
Module Stats.
Local Open Scope R_scope.

Definition sumR (l : list R) : R := fold_right Rplus 0 l.

(** [statistics.mean] *)
Definition mean (l : list R) : R := sumR l / INR (length l).

(** [statistics.variance]: the sample variance (for two or more values). *)
Definition variance (l : list R) : R :=
  let m := mean l in
  sumR (map (fun x => (x - m) ^ 2) l) / INR (length l - 1).

(** [var1] / [var2] of [calculate_cohens_d]. *)
Definition group_variance (l : list R) : R :=
  if Nat.eqb (length l) 1 then 0 else variance l.

(** [calculate_cohens_d] *)
Definition calculate_cohens_d (group1 group2 : list R) : R :=
  if Nat.eqb (length group1) 0 || Nat.eqb (length group2) 0 then 0
  else
    let mean1 := mean group1 in
    let mean2 := mean group2 in
    let var1 := group_variance group1 in
    let var2 := group_variance group2 in
    let pooled_std := sqrt ((var1 + var2) / 2) in
    if Req_dec_T pooled_std 0 then 0
    else (mean1 - mean2) / pooled_std.

(** The labels of [interpret_effect_size], the helper defined inside
    [run_comprehensive_validation]. *)
Inductive EffectSize := negligible | small | medium | large.

Definition interpret_effect_size (d : R) : EffectSize :=
  let d := Rabs d in
  if Rlt_dec d 0.2 then negligible
  else if Rlt_dec d 0.5 then small
  else if Rlt_dec d 0.8 then medium
  else large.

End Stats.

(** ** Terrain traversal ([MissionSimulator.simulate_terrain_traversal],
    src/sim/simulate_mission.py) and mission estimates
    ([EnergyModel.estimate_mission_energy], src/models/energy_model.py),
    over [R] *)
Module Terrain.
Import EnergyModel.
Local Open Scope R_scope.

(** The [RoverConfig] constants they read. *)
Definition NOMINAL_VELOCITY : R := 0.042.
Definition BATTERY_CAPACITY : R := 42.24.

(** A row of the terrain data frame, with the columns [distance],
    [slope_deg] and [roughness]. *)
Record Segment := mkSegment {
  distance : R;
  slope_deg : R;
  roughness : R
}.

(** The dictionary returned by [simulate_terrain_traversal]. *)
Record TraversalSummary := mkTraversal {
  total_distance_m : R;
  total_time_hours : R;
  total_energy_kwh : R;
  battery_level_after : R
}.

(** The loop [for _, segment in terrain_data.iterrows()] on
    [(total_energy, total_distance, total_time)]; [None] is the
    [ValueError] of [calculate_energy_consumption]. *)
Fixpoint traversal_loop (velocity : R) (segs : list Segment) (acc : R * R * R)
  : option (R * R * R) :=
  match segs with
  | [] => Some acc
  | segment :: segs' =>
      match calculate_energy_consumption (distance segment) (slope_deg segment)
              velocity (roughness segment) None with
      | None => None
      | Some result =>
          let '(total_energy, total_distance, total_time) := acc in
          traversal_loop velocity segs'
            (total_energy + energy_kwh result, total_distance + distance_m result,
             total_time + time_hours result)
      end
  end.

(** [simulate_terrain_traversal] on a simulator whose battery level is
    [current_battery_level]; the summary's last field is the battery
    level the method leaves. *)
Definition simulate_terrain_traversal (current_battery_level : R)
  (terrain_data : list Segment) (velocity : option R) : option TraversalSummary :=
  let velocity := match velocity with None => NOMINAL_VELOCITY | Some v => v end in
  match traversal_loop velocity terrain_data (0, 0, 0) with
  | None => None
  | Some (total_energy, total_distance, total_time) =>
      let energy_fraction := total_energy / BATTERY_CAPACITY in
      let level := current_battery_level - energy_fraction in
      Some (mkTraversal total_distance total_time total_energy level)
  end.

(** A segment dictionary of [estimate_mission_energy]: the key
    ['distance'] is read with [d['distance']], the others with
    [d.get(key, default)] ([None] stands for an absent key). *)
Record SegmentDict := mkSegmentDict {
  sd_distance : R;
  sd_slope_degrees : option R;
  sd_velocity : option R;
  sd_roughness : option R
}.

(** A task dictionary, with the keys ['type'] and ['duration_hours']. *)
Record TaskDict := mkTaskDict {
  td_type : string;
  td_duration_hours : Q
}.

(** [d.get(key, default)] *)
Definition dict_get (o : option R) (default : R) : R :=
  match o with Some x => x | None => default end.

(** The dictionary returned by [estimate_mission_energy]. *)
Record MissionEstimate := mkEstimate {
  movement_energy_kwh : R;
  task_energy_kwh : R;
  estimate_total_energy_kwh : R;
  estimate_total_time_hours : R;
  battery_usage_percent : R
}.

(** The segment loop on [(total_movement_energy, total_time)]. *)
Fixpoint movement_loop (segs : list SegmentDict) (acc : R * R) : option (R * R) :=
  match segs with
  | [] => Some acc
  | segment :: segs' =>
      match calculate_energy_consumption (sd_distance segment)
              (dict_get (sd_slope_degrees segment) 0)
              (dict_get (sd_velocity segment) NOMINAL_VELOCITY)
              (dict_get (sd_roughness segment) 0) None with
      | None => None
      | Some result =>
          let '(total_movement_energy, total_time) := acc in
          movement_loop segs' (total_movement_energy + energy_kwh result,
                               total_time + time_hours result)
      end
  end.

(** The task loop on [(total_task_energy, total_time)]; the task energy
    is the one computed over [Q] by [calculate_task_energy]. *)
Fixpoint task_loop (tasks : list TaskDict) (acc : R * R) : option (R * R) :=
  match tasks with
  | [] => Some acc
  | task :: tasks' =>
      match calculate_task_energy (td_type task) (td_duration_hours task) with
      | None => None
      | Some task_energy =>
          let '(total_task_energy, total_time) := acc in
          task_loop tasks' (total_task_energy + Q2R task_energy,
                            total_time + Q2R (td_duration_hours task))
      end
  end.

(** The terrain row with a segment dictionary's values, the absent slope
    and roughness read as 0 as [estimate_mission_energy] reads them. *)
Definition segment_of_dict (s : SegmentDict) : Segment :=
  mkSegment (sd_distance s) (dict_get (sd_slope_degrees s) 0) (dict_get (sd_roughness s) 0).

(** [estimate_mission_energy] *)
Definition estimate_mission_energy (terrain_segments : list SegmentDict)
  (tasks : list TaskDict) : option MissionEstimate :=
  match movement_loop terrain_segments (0, 0) with
  | None => None
  | Some (total_movement_energy, total_time) =>
      match task_loop tasks (0, total_time) with
      | None => None
      | Some (total_task_energy, total_time') =>
          let total_energy := total_movement_energy + total_task_energy in
          Some (mkEstimate total_movement_energy total_task_energy total_energy total_time'
                  (total_energy / BATTERY_CAPACITY * 100))
      end
  end.

End Terrain.

(** ** The benchmark harness (src/simple_validation.py) *)
Module SimpleValidation.

(** The [Task] dataclass; [id] is the number [i+1] that the code renders
    as the string [f"T{i+1:03d}"]. *)
Record SVTask := mkSVTask {
  id : nat;
  type_index : Z;
  duration : Q;
  urgency : Q;
  reward : Q;
  power : Q;
  energy : Q
}.

Record Scenario := mkScenario {
  energy_level : Q;
  tasks : list SVTask
}.

(** [self.power_map]; [None] is a [KeyError]. *)
Definition power_map (k : Z) : option Q :=
  match k with
  | 1%Z => Some 50 | 2%Z => Some 80 | 3%Z => Some 120
  | 4%Z => Some 30 | 5%Z => Some 45 | 6%Z => Some 25
  | _ => None
  end.

Definition battery_capacity : Q := 42.24.
Definition terrain_energy : Q := 0.061.
Definition reserve_ratio : Q := 0.20.

(** The four lines computing [usable_energy] from [energy_level], written
    identically in [generate_random_scenario] and
    [simulate_task_execution]. *)
Definition usable_energy_for (energy_level : Q) : Q :=
  let total_energy := battery_capacity * energy_level in
  let available_energy := total_energy - terrain_energy in
  let reserve_energy := available_energy * reserve_ratio in
  pymax 0 (available_energy - reserve_energy).

(** The pseudo-random draws of one loop iteration of
    [generate_random_scenario]: [random.randint(1, 6)] and three values of
    [random.random()]. *)
Record TaskDraw := mkDraw {
  draw_type_index : Z;
  draw_duration : Q;
  draw_urgency : Q;
  draw_reward : Q
}.

(** One iteration of the task loop, for [i] and its draws. *)
Definition make_task (i : nat) (d : TaskDraw) : option SVTask :=
  let type_index := draw_type_index d in
  let duration := 1.0 + draw_duration d * 6.0 in
  let urgency := 1 + draw_urgency d * 9 in
  let reward := 10 + draw_reward d * 90 in
  match power_map type_index with
  | None => None
  | Some power =>
      let energy := power * duration / 1000 in
      Some (mkSVTask (S i) type_index duration urgency reward power energy)
  end.

Fixpoint make_tasks (i : nat) (ds : list TaskDraw) : option (list SVTask) :=
  match ds with
  | [] => Some []
  | d :: ds' =>
      match make_task i d, make_tasks (S i) ds' with
      | Some t, Some ts => Some (t :: ts)
      | _, _ => None
      end
  end.

Definition total_energy_of (ts : list SVTask) : Q :=
  fold_left (fun acc t => acc + energy t) ts 0.

Definition scale_task (scale_factor : Q) (t : SVTask) : SVTask :=
  mkSVTask (id t) (type_index t) (duration t * scale_factor) (urgency t)
    (reward t) (power t) (energy t * scale_factor).

(** [generate_random_scenario], given the draw [r_level] behind
    [energy_level] and the draws of the task loop ([num_tasks] is their
    number). *)
Definition generate_random_scenario (r_level : Q) (draws : list TaskDraw)
  : option Scenario :=
  let energy_level := 0.05 + r_level * 0.15 in
  let usable_energy := usable_energy_for energy_level in
  match make_tasks 0 draws with
  | None => None
  | Some tasks =>
      let total_task_energy := total_energy_of tasks in
      if Qle_bool total_task_energy (usable_energy * 2) then
        let scale_factor := (usable_energy * 3) / pymax total_task_energy 0.1 in
        Some (mkScenario energy_level (map (scale_task scale_factor) tasks))
      else Some (mkScenario energy_level tasks)
  end.

(** [fifo_scheduler]: the copy [tasks[:]]. *)
Definition fifo_scheduler (ts : list SVTask) : list SVTask := ts.

(** [energy_greedy_scheduler] *)
Definition energy_greedy_scheduler (ts : list SVTask) : list SVTask :=
  py_sorted energy ts.

(** [urgency_first_scheduler] *)
Definition urgency_first_scheduler (ts : list SVTask) : list SVTask :=
  py_sorted_rev urgency ts.

(** The key of [wspt_scheduler]. *)
Definition wspt_key (t : SVTask) : Q := reward t / pymax (duration t) 0.01.

(** [wspt_scheduler] *)
Definition wspt_scheduler (ts : list SVTask) : list SVTask :=
  py_sorted_rev wspt_key ts.

(** The priority computed in the loop of [our_prioritization_scheduler]. *)
Definition our_priority (task : SVTask) : Q :=
  let energy_cost := 1.0 * energy task in
  let urgency_factor := 0.5 * (1.0 / pymax (urgency task) 0.1) in
  let reward_factor := -2.0 * reward task in
  let energy_efficiency := reward task / pymax (energy task) 0.001 in
  let efficiency_bonus := -0.5 * energy_efficiency in
  let time_sensitivity_bonus :=
    if Qlt_le_dec 8.0 (urgency task) then -1.0
    else if Qlt_le_dec (urgency task) 3.0 then 0.5 else 0 in
  energy_cost + urgency_factor + reward_factor + efficiency_bonus + time_sensitivity_bonus.

(** [our_prioritization_scheduler]: [priorities.sort(key=lambda x: x[0])]. *)
Definition our_prioritization_scheduler (ts : list SVTask) : list SVTask :=
  let priorities := map (fun task => (our_priority task, task)) ts in
  map snd (sort_by_key priorities).

Record ExecResult := mkExec {
  completed_tasks : list SVTask;
  total_energy : Q;
  total_reward : Q
}.

(** One iteration of the loop of [simulate_task_execution] on
    [(completed_tasks, usable_energy, energy_used, total_reward)]. *)
Definition exec_step (acc : list SVTask * Q * Q * Q) (task : SVTask)
  : list SVTask * Q * Q * Q :=
  let '(completed, usable_energy, energy_used, total_reward) := acc in
  if Qle_bool (energy task) usable_energy then
    (completed ++ [task], usable_energy - energy task,
     energy_used + energy task, total_reward + reward task)
  else acc.

(** [simulate_task_execution] *)
Definition simulate_task_execution (ordered_tasks : list SVTask) (energy_level : Q)
  : ExecResult :=
  let usable_energy := usable_energy_for energy_level in
  let '(completed, _, energy_used, total_reward) :=
    fold_left exec_step ordered_tasks ([], usable_energy, terrain_energy, 0) in
  mkExec completed energy_used total_reward.

(** The dictionary returned by [run_single_algorithm_test]. *)
Record TestResult := mkTest {
  completion_rate : Q;
  test_total_reward : Q;
  energy_used : Q;
  efficiency : Q
}.

(** [run_single_algorithm_test]: [None] is the [ZeroDivisionError] of
    [len(...) / len(scenario["tasks"])] for a scenario without tasks. *)
Definition run_single_algorithm_test (algorithm_func : list SVTask -> list SVTask)
  (scenario : Scenario) : option TestResult :=
  let ordered_tasks := algorithm_func (tasks scenario) in
  let execution_result := simulate_task_execution ordered_tasks (energy_level scenario) in
  match length (tasks scenario) with
  | O => None
  | n =>
      let completion_rate :=
        inject_Z (Z.of_nat (length (completed_tasks execution_result)))
        / inject_Z (Z.of_nat n) * 100 in
      let efficiency :=
        total_reward execution_result / pymax (total_energy execution_result) 0.001 in
      Some (mkTest completion_rate (total_reward execution_result)
              (total_energy execution_result) efficiency)
  end.

(** The harness's feasibility as the spec words it (§4.3 steps 3 and 4,
    without terrain): with battery level [b], initially [energy_level],
    a task is feasible iff its energy is at most
    [max(0, b * capacity - capacity * reserve ratio)], and a completed task
    lowers [b] by its energy over the capacity.  Returns the completed
    tasks. *)
Fixpoint spec_engine_rule_execution (ordered_tasks : list SVTask) (b : Q)
  : list SVTask :=
  match ordered_tasks with
  | [] => []
  | task :: rest =>
      let available := pymax 0 (b * battery_capacity - battery_capacity * reserve_ratio) in
      if Qle_bool (energy task) available then
        task :: spec_engine_rule_execution rest (b - energy task / battery_capacity)
      else spec_engine_rule_execution rest b
  end.

End SimpleValidation.

(** The primary policy's composite cost as the spec words it:
    [1.0*energy + 0.5*(1/max(urgency, 0.1)) + (-2.0)*reward
     + (-0.5)*(reward/max(energy, 0.001)) + tau(urgency)], with
    [tau] = -1.0 above urgency 8, +0.5 below urgency 3, and 0 otherwise. *)
Definition weighted_cost_spec (energy urgency reward : Q) : Q :=
  let tau := if Qlt_le_dec 8 urgency then -1.0
             else if Qlt_le_dec urgency 3 then 0.5 else 0 in
  1.0 * energy + 0.5 * (1 / pymax urgency 0.1) + (-2.0) * reward
  + (-0.5) * (reward / pymax energy 0.001) + tau.

(** The key [MissionSimulator.calculate_task_priority] returns, read off a
    task whose energy cost it has cached. *)
Definition mission_priority_key (t : Mission.Task) : Q :=
  Mission.lambda1 * Mission.energy_cost t
  + Mission.lambda2 * (1 / pymax (Mission.urgency t) 0.1)
  + Mission.lambda3 * Mission.reward t.

(** ** Completed-task counts of the two greedy loops

    The number of tasks [mission_loop] completes from battery level [b],
    and the number [simulate_task_execution]'s loop completes from the
    usable budget [u]; they follow the loops' decisions step by step. *)
Fixpoint engine_count (b : Q) (ts : list Mission.Task) : nat :=
  match ts with
  | [] => O
  | t :: ts' =>
      if RoverConfig.is_critical_energy b then O
      else if Qle_bool (Mission.energy_cost t) (RoverConfig.get_available_energy b)
      then S (engine_count (b - Mission.energy_cost t / RoverConfig.BATTERY_CAPACITY) ts')
      else engine_count b ts'
  end.

Fixpoint harness_count (u : Q) (ts : list SimpleValidation.SVTask) : nat :=
  match ts with
  | [] => O
  | t :: ts' =>
      if Qle_bool (SimpleValidation.energy t) u
      then S (harness_count (u - SimpleValidation.energy t) ts')
      else harness_count u ts'
  end.

(** ** Concrete inputs used by the counterexamples and witnesses *)
(** Tasks with energy costs 31, 14 and 14 kWh (communication tasks of
    1240, 560 and 560 hours), in this order. *)
Definition mono_tasks : list Mission.Task :=
  [Mission.set_energy_cost (Mission.new_task "A" "communication" 1240 5 50) 31;
   Mission.set_energy_cost (Mission.new_task "B" "communication" 560 5 50) 14;
   Mission.set_energy_cost (Mission.new_task "C" "communication" 560 5 50) 14]%string.

Definition mono_sv_tasks : list SimpleValidation.SVTask :=
  [SimpleValidation.mkSVTask 1 6 1240 5 50 25 31;
   SimpleValidation.mkSVTask 2 6 560 5 50 25 14;
   SimpleValidation.mkSVTask 3 6 560 5 50 25 14].

(** An imaging task of 100/3 hours: 1 kWh. *)
Definition feas_sv_task : SimpleValidation.SVTask :=
  SimpleValidation.mkSVTask 1 4 (100 / 3) 5 50 30 1.

(** An imaging and a drilling task of one hour each, urgency 5, rewards
    10 and 11. *)
Definition prio_tasks : list Mission.Task :=
  [Mission.new_task "A" "imaging" 1 5 10;
   Mission.new_task "B" "drilling" 1 5 11]%string.

(** * The stable sort *)
Module SortFacts.
Section Facts.
Context {A : Type}.

Definition key_le (a b : Q * A) : Prop := fst a <= fst b.

Lemma insert_perm (x : Q * A) (l : list (Q * A)) :
Permutation (insert_by_key x l) (x :: l).
Proof.
induction l as [|y l IH]; simpl; [reflexivity|].
destruct (Qle_bool (fst x) (fst y)); [reflexivity|].
rewrite IH. apply perm_swap.
Qed.

Lemma sort_perm (l : list (Q * A)) : Permutation (sort_by_key l) l.
Proof.
induction l as [|x l IH]; simpl; [reflexivity|].
rewrite insert_perm. now apply perm_skip.
Qed.

Lemma insert_hdrel (x y : Q * A) (l : list (Q * A)) :
HdRel key_le y l -> key_le y x -> HdRel key_le y (insert_by_key x l).
Proof.
intros Hl Hx. destruct l as [|z l]; simpl; [now constructor|].
destruct (Qle_bool (fst x) (fst z)); constructor; [exact Hx|].
now inversion Hl.
Qed.

Lemma insert_sorted (x : Q * A) (l : list (Q * A)) :
Sorted key_le l -> Sorted key_le (insert_by_key x l).
Proof.
induction 1 as [|y l Hl IH Hhd]; simpl; [now repeat constructor|].
destruct (Qle_bool (fst x) (fst y)) eqn:E.
- constructor; [now constructor|]. constructor. now apply Qle_bool_iff.
- constructor; [exact IH|]. apply insert_hdrel; [exact Hhd|].
unfold key_le. apply Qlt_le_weak, Qnot_le_lt.
intros H. apply Qle_bool_iff in H. congruence.
Qed.

Lemma sort_sorted (l : list (Q * A)) : Sorted key_le (sort_by_key l).
Proof.
induction l as [|x l IH]; simpl; [constructor|]. now apply insert_sorted.
Qed.

Definition key_is (q : Q) (p : Q * A) : bool := Qeq_bool (fst p) q.

Lemma filter_insert (q : Q) (x : Q * A) (l : list (Q * A)) :
filter (key_is q) (insert_by_key x l)
= if key_is q x then x :: filter (key_is q) l else filter (key_is q) l.
Proof.
induction l as [|y l IH]; simpl; [reflexivity|].
destruct (Qle_bool (fst x) (fst y)) eqn:E; [reflexivity|].
simpl. rewrite IH.
destruct (key_is q x) eqn:Ex, (key_is q y) eqn:Ey; try reflexivity.
exfalso. unfold key_is in *. apply Qeq_bool_iff in Ex, Ey.
assert (H : fst x <= fst y) by (rewrite Ex, Ey; apply Qle_refl).
apply Qle_bool_iff in H. congruence.
Qed.

(** Stability: the elements of any one key keep their input order. *)
Lemma sort_stable (q : Q) (l : list (Q * A)) :
filter (key_is q) (sort_by_key l) = filter (key_is q) l.
Proof.
induction l as [|x l IH]; simpl; [reflexivity|].
rewrite filter_insert, IH. reflexivity.
Qed.

Variable f : A -> Q.

Definition decorated (p : Q * A) : Prop := fst p = f (snd p).

Lemma sorted_undecorate (l : list (Q * A)) :
Forall decorated l -> Sorted key_le l ->
Sorted (fun a b => f a <= f b) (map snd l).
Proof.
intros Hd Hs. induction Hs as [|p l Hs IH Hhd]; simpl; [constructor|].
inversion Hd as [|? ? Hp Hl]; subst. constructor; [now apply IH|].
destruct Hhd as [|p' l' Hle]; simpl; constructor.
inversion Hl as [|? ? Hp' _]; subst. unfold key_le, decorated in *.
now rewrite <- Hp, <- Hp'.
Qed.

Lemma filter_undecorate (q : Q) (l : list (Q * A)) :
Forall decorated l ->
filter (fun x => Qeq_bool (f x) q) (map snd l) = map snd (filter (key_is q) l).
Proof.
induction 1 as [|p l Hp _ IH]; simpl; [reflexivity|].
unfold key_is at 1. rewrite Hp. destruct (Qeq_bool (f (snd p)) q); simpl; now rewrite IH.
Qed.

Lemma decorate_all (xs : list A) : Forall decorated (map (fun x => (f x, x)) xs).
Proof. apply Forall_forall. intros p Hp. apply in_map_iff in Hp as [x [<- _]]. reflexivity. Qed.

Lemma py_sorted_spec (xs : list A) :
Sorted (fun a b => f a <= f b) (py_sorted f xs) /\
Permutation (py_sorted f xs) xs /\
(forall q, filter (fun x => Qeq_bool (f x) q) (py_sorted f xs)
         = filter (fun x => Qeq_bool (f x) q) xs).
Proof.
unfold py_sorted.
assert (Hd : Forall decorated (sort_by_key (map (fun x => (f x, x)) xs))).
{ eapply Permutation_Forall; [symmetry; apply sort_perm|apply decorate_all]. }
split; [|split].
- apply sorted_undecorate; [exact Hd|apply sort_sorted].
- rewrite sort_perm, map_map. simpl. now rewrite map_id.
- intros q. rewrite filter_undecorate by exact Hd.
rewrite sort_stable, <- filter_undecorate by apply decorate_all.
rewrite map_map. simpl. now rewrite map_id.
Qed.
End Facts.
End SortFacts.

(** * Properties of the mission simulator *)
Module MissionFacts.
Import Mission.

Lemma execute_task_processes (st : MState) (t : Task) :
  not_processed (snd (fst (execute_task st t))) = false.
Proof.
  unfold execute_task; destruct (negb (can_execute_task st t)); simpl;
    unfold not_processed; simpl; rewrite ?andb_false_r; reflexivity.
Qed.

Lemma filter_processed (done : list Task) :
  Forall (fun t => not_processed t = false) done -> filter not_processed done = [].
Proof.
  induction 1 as [|t l Ht _ IH]; simpl; [reflexivity|]. now rewrite Ht.
Qed.

Lemma filter_fresh (ts : list Task) :
  Forall (fun t => not_processed t = true) ts -> filter not_processed ts = ts.
Proof.
  induction 1 as [|t l Ht _ IH]; simpl; [reflexivity|]. now rewrite Ht, IH.
Qed.

Lemma map_defer_processed (done : list Task) :
  Forall (fun t => not_processed t = false) done ->
  map (fun t => if not_processed t then set_deferred t else t) done = done.
Proof.
  induction 1 as [|t l Ht _ IH]; simpl; [reflexivity|]. now rewrite Ht, IH.
Qed.

Lemma map_defer_fresh (ts : list Task) :
  Forall (fun t => not_processed t = true) ts ->
  map (fun t => if not_processed t then set_deferred t else t) ts = map set_deferred ts.
Proof.
  induction 1 as [|t l Ht _ IH]; simpl; [reflexivity|]. now rewrite Ht, IH.
Qed.

Lemma mission_loop_halt (ts : list Task) :
  forall st done k,
    Forall (fun t => not_processed t = true) ts ->
    Forall (fun t => not_processed t = false) done ->
    (k < length ts)%nat ->
    (forall j, (j < k)%nat ->
       RoverConfig.is_critical_energy
         (current_battery_level (fst (exec_run st (firstn j ts)))) = false) ->
    RoverConfig.is_critical_energy
      (current_battery_level (fst (exec_run st (firstn k ts)))) = true ->
    let stk := fst (exec_run st (firstn k ts)) in
    mission_loop st done ts =
      (mkState (current_battery_level stk) (completed_tasks stk)
         (deferred_tasks stk ++ map set_deferred (skipn k ts)) (mission_log stk),
       done ++ snd (exec_run st (firstn k ts)) ++ map set_deferred (skipn k ts)).
Proof.
  induction ts as [|t ts IH]; intros st done k Hfresh Hdone Hk Hbefore Hcrit;
    simpl in Hk; [lia|].
  destruct k as [|k].
  - cbn [firstn skipn exec_run fst app mission_loop] in *. rewrite Hcrit.
    rewrite filter_app, filter_processed, (filter_fresh (t :: ts)) by assumption.
    rewrite (map_app _ done), (map_defer_processed done Hdone).
    rewrite (map_defer_fresh (t :: ts) Hfresh).
    reflexivity.
  - simpl. specialize (Hbefore O ltac:(lia)) as H0. simpl in H0. rewrite H0.
    inversion Hfresh as [|? ? Ht Hts]; subst.
    destruct (execute_task st t) as [[st' t'] b] eqn:Hex.
    assert (Ht' : not_processed t' = false).
    { pose proof (execute_task_processes st t) as P. now rewrite Hex in P. }
    simpl in Hcrit. rewrite Hex in Hcrit.
    destruct (exec_run st' (firstn k ts)) as [stk lk] eqn:Hrun.
    rewrite (IH st' (done ++ [t']) k Hts).
    + rewrite Hrun. simpl. now rewrite <- app_assoc.
    + apply Forall_app; split; auto.
    + lia.
    + intros j Hj. specialize (Hbefore (S j) ltac:(lia)). simpl in Hbefore.
      now rewrite Hex in Hbefore; destruct (exec_run st' (firstn j ts)).
    + now rewrite Hrun.
Qed.

Lemma exec_run_length (l : list Task) :
  forall st, length (snd (exec_run st l)) = length l.
Proof.
  induction l as [|t l IH]; intros st; simpl; [reflexivity|].
  destruct (execute_task st t) as [[st' t'] b].
  specialize (IH st'). destruct (exec_run st' l); simpl in *; now rewrite IH.
Qed.

(** C1: the first time the battery is critical when a task is about to be
    processed, the mission halts: every task not yet processed is deferred
    in bulk (flag set and appended to [deferred_tasks]), and no task is
    completed from that point on.  [k] is the position of that task in the
    prioritized list; before it, the loop only ran [execute_task].  Tasks
    are fresh, as built by [Task.__init__] (no flag set). *)
Theorem mission_halt_bulk_defers (st : MState) (ts : list Task) (k : nat)
  (Hfresh : Forall (fun t => not_processed t = true) ts)
  (Hk : (k < length ts)%nat)
  (Hbefore : forall j, (j < k)%nat ->
     RoverConfig.is_critical_energy
       (current_battery_level (fst (exec_run st (firstn j ts)))) = false)
  (Hcrit : RoverConfig.is_critical_energy
       (current_battery_level (fst (exec_run st (firstn k ts)))) = true) :
  let stk := fst (exec_run st (firstn k ts)) in
  let '(st', final) := mission_loop st [] ts in
  completed_tasks st' = completed_tasks stk /\
  deferred_tasks st' = deferred_tasks stk ++ map set_deferred (skipn k ts) /\
  skipn k final = map set_deferred (skipn k ts) /\
  Forall (fun t => deferred t = true /\ completed t = false) (skipn k final).
Proof.
  cbv zeta.
  rewrite (mission_loop_halt ts st [] k Hfresh (Forall_nil _) Hk Hbefore Hcrit).
  simpl. repeat split; try reflexivity.
  - rewrite skipn_app, skipn_all2.
    + rewrite exec_run_length, firstn_length_le by lia.
      now rewrite Nat.sub_diag.
    + rewrite exec_run_length, firstn_length_le by lia. lia.
  - rewrite skipn_app, skipn_all2
      by (rewrite exec_run_length, firstn_length_le by lia; lia).
    rewrite exec_run_length, firstn_length_le, Nat.sub_diag by lia. simpl.
    apply Forall_map.
    apply (Forall_impl _ (P := fun t => not_processed t = true)).
    + intros t Ht. unfold not_processed in Ht. simpl.
      apply andb_true_iff in Ht as [Hc _]. split; [reflexivity|].
      now apply negb_true_iff.
    + rewrite <- (firstn_skipn k ts) in Hfresh.
      now apply Forall_app in Hfresh as [_ H].
Qed.

Lemma mission_halt_bulk_defers_witness :
  let st := mkState 0.05 [] [] [] in
  let ts := [new_task "T001" "imaging" 0.5 5.0 5.0;
             new_task "T002" "drilling" 3.0 9.0 15.0]%string in
  Forall (fun t => not_processed t = true) ts /\ (0 < length ts)%nat /\
  (let stk := fst (exec_run st (firstn 0 ts)) in
   let '(st', final) := mission_loop st [] ts in
   completed_tasks st' = completed_tasks stk /\
   deferred_tasks st' = deferred_tasks stk ++ map set_deferred (skipn 0 ts) /\
   skipn 0 final = map set_deferred (skipn 0 ts) /\
   Forall (fun t => deferred t = true /\ completed t = false) (skipn 0 final)).
Proof.
  split; [repeat constructor|]. split; [simpl; lia|].
  apply (mission_halt_bulk_defers _ _ 0).
  - repeat constructor.
  - simpl; lia.
  - intros j Hj; lia.
  - reflexivity.
Defined.

End MissionFacts.

(** * Reserve and monotonicity of the greedy loops *)
Module GreedyFacts.
Import Mission.

Lemma div_capacity (e : Q) :
  e / RoverConfig.BATTERY_CAPACITY == e * (25 # 1056).
Proof. unfold Qdiv. apply Qmult_comp; reflexivity. Qed.

Lemma pymax_spec (a b : Q) : a <= pymax a b /\ b <= pymax a b /\ (pymax a b == a \/ pymax a b == b).
Proof.
  unfold pymax; destruct (Qlt_le_dec a b).
  - split; [qlra|]. split; [qlra|]. right; reflexivity.
  - split; [qlra|]. split; [qlra|]. left; reflexivity.
Qed.

Lemma Qle_bool_true (a b : Q) : Qle_bool a b = true <-> a <= b.
Proof. apply Qle_bool_iff. Qed.

Lemma Qle_bool_false (a b : Q) : Qle_bool a b = false <-> b < a.
Proof.
  split; intros H.
  - apply Qnot_le_lt. intros H'. apply Qle_bool_iff in H'. congruence.
  - destruct (Qle_bool a b) eqn:E; [|reflexivity]. apply Qle_bool_iff in E. qlra.
Qed.

(** C10: a task with a positive energy cost that [execute_task] completes
    leaves the battery at or above the reserve ratio. *)
Theorem execute_task_keeps_reserve (st st' : MState) (task task' : Task)
  (Hpos : 0 < energy_cost task)
  (Hexec : execute_task st task = (st', task', true)) :
  RoverConfig.ENERGY_RESERVE_RATIO <= current_battery_level st'.
Proof.
  unfold execute_task, can_execute_task in Hexec.
  destruct (RoverConfig.is_critical_energy (current_battery_level st)); [discriminate|].
  destruct (Qle_bool (energy_cost task)
              (RoverConfig.get_available_energy (current_battery_level st))) eqn:Hle;
    [|discriminate].
  simpl in Hexec. injection Hexec as <- _. simpl.
  apply Qle_bool_true in Hle. unfold RoverConfig.get_available_energy in Hle.
  destruct (pymax_spec 0 (RoverConfig.BATTERY_CAPACITY * current_battery_level st
                          - RoverConfig.BATTERY_CAPACITY * RoverConfig.ENERGY_RESERVE_RATIO))
    as [_ [_ [Hm | Hm]]]; rewrite Hm in Hle.
  - qlra.
  - rewrite div_capacity. unfold RoverConfig.BATTERY_CAPACITY,
      RoverConfig.ENERGY_RESERVE_RATIO in *. qlra.
Qed.

Lemma execute_task_keeps_reserve_witness :
  let st := mkState 1.0 [] [] [] in
  let task := set_energy_cost (new_task "T003" "drilling" 3.0 9.0 15.0) 0.36 in
  0 < energy_cost task /\
  execute_task st task = (fst (fst (execute_task st task)), snd (fst (execute_task st task)), true) /\
  RoverConfig.ENERGY_RESERVE_RATIO <= current_battery_level (fst (fst (execute_task st task))).
Proof.
  cbv zeta. split; [reflexivity|]. split; [reflexivity|].
  eapply (execute_task_keeps_reserve (mkState 1.0 [] [] []) _
            (set_energy_cost (new_task "T003" "drilling" 3.0 9.0 15.0) 0.36));
    reflexivity.
Defined.

Lemma mission_loop_count (ts : list Task) :
  forall st done,
    length (completed_tasks (fst (mission_loop st done ts)))
    = (length (completed_tasks st) + engine_count (current_battery_level st) ts)%nat.
Proof.
  induction ts as [|t ts IH]; intros st done; simpl; [lia|].
  destruct (RoverConfig.is_critical_energy (current_battery_level st)) eqn:Hc;
    [simpl; lia|].
  unfold execute_task, can_execute_task. rewrite Hc.
  destruct (Qle_bool (energy_cost t)
              (RoverConfig.get_available_energy (current_battery_level st))); simpl;
    rewrite IH; simpl; rewrite ?length_app; simpl; lia.
Qed.

Lemma available_mono (b1 b2 : Q) :
  b1 <= b2 -> RoverConfig.get_available_energy b1 <= RoverConfig.get_available_energy b2.
Proof.
  intros H. unfold RoverConfig.get_available_energy.
  set (x1 := RoverConfig.BATTERY_CAPACITY * b1 - RoverConfig.BATTERY_CAPACITY * RoverConfig.ENERGY_RESERVE_RATIO).
  set (x2 := RoverConfig.BATTERY_CAPACITY * b2 - RoverConfig.BATTERY_CAPACITY * RoverConfig.ENERGY_RESERVE_RATIO).
  assert (x1 <= x2) by (unfold x1, x2, RoverConfig.BATTERY_CAPACITY in *; qlra).
  destruct (pymax_spec 0 x1) as [A1 [B1 [C1|C1]]];
  destruct (pymax_spec 0 x2) as [A2 [B2 [C2|C2]]]; rewrite C1; qlra.
Qed.

Lemma engine_count_none (ts : list Task) (b : Q) :
  Forall (fun t => RoverConfig.get_available_energy b < energy_cost t) ts ->
  engine_count b ts = O.
Proof.
  induction 1 as [|t ts Ht _ IH]; simpl; [reflexivity|].
  destruct (RoverConfig.is_critical_energy b); [reflexivity|].
  replace (Qle_bool (energy_cost t) (RoverConfig.get_available_energy b)) with false;
    [exact IH|]. symmetry. now apply Qle_bool_false.
Qed.

Lemma critical_mono (b1 b2 : Q) :
  b1 <= b2 -> RoverConfig.is_critical_energy b2 = true ->
  RoverConfig.is_critical_energy b1 = true.
Proof.
  unfold RoverConfig.is_critical_energy. rewrite !Qle_bool_true. qlra.
Qed.

Lemma engine_count_mono (ts : list Task) :
  StronglySorted (fun a b => energy_cost a <= energy_cost b) ts ->
  forall b1 b2, b1 <= b2 -> (engine_count b1 ts <= engine_count b2 ts)%nat.
Proof.
  induction 1 as [|t ts _ IH Hall]; intros b1 b2 Hb; simpl; [lia|].
  destruct (RoverConfig.is_critical_energy b2) eqn:C2.
  - now rewrite (critical_mono b1 b2 Hb C2).
  - destruct (RoverConfig.is_critical_energy b1) eqn:C1; [lia|].
    pose proof (available_mono b1 b2 Hb) as Ha.
    destruct (Qle_bool (energy_cost t) (RoverConfig.get_available_energy b1)) eqn:E1;
    destruct (Qle_bool (energy_cost t) (RoverConfig.get_available_energy b2)) eqn:E2.
    + apply le_n_S, IH. rewrite !div_capacity. qlra.
    + apply Qle_bool_true in E1. apply Qle_bool_false in E2. qlra.
    + apply Qle_bool_false in E1.
      rewrite (engine_count_none ts b1); [lia|].
      eapply Forall_impl; [|exact Hall]. simpl. intros a Ha'. qlra.
    + now apply IH.
Qed.

Lemma harness_fold_count (ts : list SimpleValidation.SVTask) :
  forall c u x y,
    length (fst (fst (fst (fold_left SimpleValidation.exec_step ts (c, u, x, y)))))
    = (length c + harness_count u ts)%nat.
Proof.
  induction ts as [|t ts IH]; intros c u x y; simpl; [lia|].
  destruct (Qle_bool (SimpleValidation.energy t) u); rewrite IH;
    rewrite ?length_app; simpl; lia.
Qed.

Lemma harness_count_none (ts : list SimpleValidation.SVTask) (u : Q) :
  Forall (fun t => u < SimpleValidation.energy t) ts -> harness_count u ts = O.
Proof.
  induction 1 as [|t ts Ht _ IH]; simpl; [reflexivity|].
  replace (Qle_bool (SimpleValidation.energy t) u) with false; [exact IH|].
  symmetry. now apply Qle_bool_false.
Qed.

Lemma harness_count_mono (ts : list SimpleValidation.SVTask) :
  StronglySorted (fun a b => SimpleValidation.energy a <= SimpleValidation.energy b) ts ->
  forall u1 u2, u1 <= u2 -> (harness_count u1 ts <= harness_count u2 ts)%nat.
Proof.
  induction 1 as [|t ts _ IH Hall]; intros u1 u2 Hu; simpl; [lia|].
  destruct (Qle_bool (SimpleValidation.energy t) u1) eqn:E1;
  destruct (Qle_bool (SimpleValidation.energy t) u2) eqn:E2.
  - apply le_n_S, IH. qlra.
  - apply Qle_bool_true in E1. apply Qle_bool_false in E2. qlra.
  - apply Qle_bool_false in E1.
    rewrite (harness_count_none ts u1); [lia|].
    eapply Forall_impl; [|exact Hall]. simpl. intros a Ha'. qlra.
  - now apply IH.
Qed.

Lemma usable_energy_mono (l1 l2 : Q) :
  l1 <= l2 -> SimpleValidation.usable_energy_for l1 <= SimpleValidation.usable_energy_for l2.
Proof.
  intros H. unfold SimpleValidation.usable_energy_for.
  set (x1 := SimpleValidation.battery_capacity * l1 - SimpleValidation.terrain_energy
             - (SimpleValidation.battery_capacity * l1 - SimpleValidation.terrain_energy)
               * SimpleValidation.reserve_ratio).
  set (x2 := SimpleValidation.battery_capacity * l2 - SimpleValidation.terrain_energy
             - (SimpleValidation.battery_capacity * l2 - SimpleValidation.terrain_energy)
               * SimpleValidation.reserve_ratio).
  assert (x1 <= x2)
    by (unfold x1, x2, SimpleValidation.battery_capacity, SimpleValidation.reserve_ratio in *;
        qlra).
  destruct (pymax_spec 0 x1) as [A1 [B1 [C1|C1]]];
  destruct (pymax_spec 0 x2) as [A2 [B2 [C2|C2]]]; rewrite C1; qlra.
Qed.

Lemma simulate_count (ts : list SimpleValidation.SVTask) (l : Q) :
  length (SimpleValidation.completed_tasks (SimpleValidation.simulate_task_execution ts l))
  = harness_count (SimpleValidation.usable_energy_for l) ts.
Proof.
  unfold SimpleValidation.simulate_task_execution.
  pose proof (harness_fold_count ts [] (SimpleValidation.usable_energy_for l)
                SimpleValidation.terrain_energy 0) as H.
  destruct (fold_left SimpleValidation.exec_step ts
              ([], SimpleValidation.usable_energy_for l, SimpleValidation.terrain_energy, 0))
    as [[[c u] x] y]. simpl in *. exact H.
Qed.

(** C2 fails: on the same ordered tasks, both greedy loops complete two
    tasks from the lower energy level 0.9 and only one from the full
    level 1.0 (skipping the large first task leaves room for the two
    smaller ones). *)
Lemma greedy_count_not_monotone :
  (length (completed_tasks (fst (mission_loop (mkState 1.0 [] [] []) [] mono_tasks))) = 1 /\
   length (completed_tasks (fst (mission_loop (mkState 0.9 [] [] []) [] mono_tasks))) = 2)%nat /\
  (length (SimpleValidation.completed_tasks
             (SimpleValidation.simulate_task_execution mono_sv_tasks 1.0)) = 1 /\
   length (SimpleValidation.completed_tasks
             (SimpleValidation.simulate_task_execution mono_sv_tasks 0.9)) = 2)%nat.
Proof. vm_compute. repeat split. Qed.

(** C2, amended: the completed count is non-decreasing in the energy
    level when the ordered tasks are ascending by energy cost (the
    EnergyGreedy order), for the mission loop from battery level [b]
    and for the benchmark's [simulate_task_execution] from energy level
    [l]. *)
Theorem greedy_count_monotone_energy_sorted :
  (forall (ts : list Task) (b1 b2 : Q),
     Sorted (fun a b => energy_cost a <= energy_cost b) ts -> b1 <= b2 ->
     (length (completed_tasks (fst (mission_loop (mkState b1 [] [] []) [] ts)))
      <= length (completed_tasks (fst (mission_loop (mkState b2 [] [] []) [] ts))))%nat) /\
  (forall (ts : list SimpleValidation.SVTask) (l1 l2 : Q),
     Sorted (fun a b => SimpleValidation.energy a <= SimpleValidation.energy b) ts ->
     l1 <= l2 ->
     (length (SimpleValidation.completed_tasks (SimpleValidation.simulate_task_execution ts l1))
      <= length (SimpleValidation.completed_tasks (SimpleValidation.simulate_task_execution ts l2)))%nat).
Proof.
  split.
  - intros ts b1 b2 Hs Hb. rewrite !mission_loop_count. simpl.
    apply engine_count_mono; [|exact Hb].
    apply Sorted_StronglySorted; [|exact Hs]. intros x y z; apply Qle_trans.
  - intros ts l1 l2 Hs Hl. rewrite !simulate_count.
    apply harness_count_mono; [|now apply usable_energy_mono].
    apply Sorted_StronglySorted; [|exact Hs]. intros x y z; apply Qle_trans.
Qed.

Lemma greedy_count_monotone_energy_sorted_witness :
  let ts := [set_energy_cost (new_task "B" "communication" 560 5 50) 14;
             set_energy_cost (new_task "C" "communication" 560 5 50) 14;
             set_energy_cost (new_task "A" "communication" 1240 5 50) 31]%string in
  let sv := SimpleValidation.energy_greedy_scheduler mono_sv_tasks in
  (length (completed_tasks (fst (mission_loop (mkState 0.9 [] [] []) [] ts)))
   <= length (completed_tasks (fst (mission_loop (mkState 1.0 [] [] []) [] ts))))%nat /\
  (length (SimpleValidation.completed_tasks (SimpleValidation.simulate_task_execution sv 0.9))
   <= length (SimpleValidation.completed_tasks (SimpleValidation.simulate_task_execution sv 1.0)))%nat.
Proof.
  cbv zeta. split.
  - apply (proj1 greedy_count_monotone_energy_sorted).
    + vm_compute. repeat constructor; discriminate.
    + vm_compute. discriminate.
  - apply (proj2 greedy_count_monotone_energy_sorted).
    + vm_compute. repeat constructor; discriminate.
    + vm_compute. discriminate.
Defined.

End GreedyFacts.

(** * The benchmark harness, the task energy and the scheduling policies *)
Module PolicyFacts.
Import SimpleValidation.

Lemma Qle_bool_compat (a b c : Q) : b == c -> Qle_bool a b = Qle_bool a c.
Proof.
  intros H. destruct (Qle_bool a b) eqn:E1, (Qle_bool a c) eqn:E2; try reflexivity.
  - apply Qle_bool_iff in E1. rewrite H in E1. apply Qle_bool_iff in E1. congruence.
  - apply Qle_bool_iff in E2. rewrite <- H in E2. apply Qle_bool_iff in E2. congruence.
Qed.

Lemma pymax_compat (a b c : Q) : b == c -> pymax a b == pymax a c.
Proof.
  intros H. unfold pymax.
  destruct (Qlt_le_dec a b), (Qlt_le_dec a c); try qlra; reflexivity.
Qed.

Lemma total_energy_acc (l : list SVTask) :
  forall a, fold_left (fun acc t => acc + energy t) l a
            == a + fold_left (fun acc t => acc + energy t) l 0.
Proof.
  induction l as [|t l IH]; intros a; simpl; [qlra|].
  rewrite (IH (a + energy t)), (IH (0 + energy t)). qlra.
Qed.

Lemma total_energy_cons (t : SVTask) (l : list SVTask) :
  total_energy_of (t :: l) == energy t + total_energy_of l.
Proof. unfold total_energy_of. simpl. rewrite total_energy_acc. qlra. Qed.

Lemma exec_fold_budget (l : list SVTask) :
  forall c u x y,
    let F := fold_left exec_step l (c, u, x, y) in
    exists added, fst (fst (fst F)) = c ++ added /\
                  snd (fst (fst F)) == u - total_energy_of added.
Proof.
  induction l as [|t l IH]; intros c u x y; simpl.
  - exists []. rewrite app_nil_r. split; [reflexivity|].
    unfold total_energy_of. simpl. qlra.
  - destruct (Qle_bool (energy t) u).
    + destruct (IH (c ++ [t]) (u - energy t) (x + energy t) (y + reward t))
        as [added [H1 H2]].
      exists (t :: added). rewrite H1, <- app_assoc. split; [reflexivity|].
      rewrite H2, total_energy_cons. qlra.
    + apply IH.
Qed.

(** C3, amended: the harness's own rule.  The initial budget is
    [max(0, (capacity * level - terrain_energy) * (1 - reserve_ratio))]
    with the fixed terrain energy 0.061 kWh and the reserve taken from
    the energy left after terrain; a task is completed iff its energy is
    at most that budget minus the energy of the tasks completed before
    it; there is no critical-energy check. *)
Theorem harness_budget_rule (l : list SVTask) (t : SVTask) (lvl : Q) :
  let done := completed_tasks (simulate_task_execution l lvl) in
  completed_tasks (simulate_task_execution (l ++ [t]) lvl)
  = done ++ (if Qle_bool (energy t) (usable_energy_for lvl - total_energy_of done)
             then [t] else []) /\
  usable_energy_for lvl
  == pymax 0 ((battery_capacity * lvl - terrain_energy) * (1 - reserve_ratio)).
Proof.
  split.
  - unfold simulate_task_execution. rewrite fold_left_app.
    destruct (exec_fold_budget l [] (usable_energy_for lvl) terrain_energy 0)
      as [added [H1 H2]].
    destruct (fold_left exec_step l ([], usable_energy_for lvl, terrain_energy, 0))
      as [[[c u] x] y]. simpl in *. subst c.
    rewrite (Qle_bool_compat _ _ _ H2).
    destruct (Qle_bool (energy t) (usable_energy_for lvl - total_energy_of added));
      simpl; now rewrite ?app_nil_r.
  - unfold usable_energy_for. apply pymax_compat. qlra.
Qed.

(** C3 fails: at energy level 0.15 the harness completes a 1 kWh task,
    while the engine's rule (available energy
    [max(0, 0.15 * 42.24 - 42.24 * 0.2) = 0]) defers it. *)
Lemma harness_not_engine_rule :
  completed_tasks (simulate_task_execution [feas_sv_task] 0.15) = [feas_sv_task] /\
  spec_engine_rule_execution [feas_sv_task] 0.15 = [] /\
  Mission.can_execute_task (Mission.mkState 0.15 [] [] [])
    (Mission.set_energy_cost (Mission.new_task "T001" "imaging" (100 / 3) 5 50) 1) = false.
Proof. vm_compute. repeat split. Qed.

Lemma map_option_none {A B : Type} (f : A -> option B) (xs : list A) :
  map_option f xs = None <-> exists x, In x xs /\ f x = None.
Proof.
  induction xs as [|x xs IH]; simpl.
  - split; [discriminate|]. intros [? [[] _]].
  - destruct (f x) eqn:Ex.
    + destruct (map_option f xs) eqn:Er.
      * split; [discriminate|]. intros [y [[<-|Hy] Hn]]; [congruence|].
        assert (H : Some l = None) by (apply IH; eauto). discriminate.
      * split; [intros _|reflexivity]. destruct (proj1 IH eq_refl) as [y [Hy Hn]]. eauto.
    + split; [intros _|reflexivity]. eauto.
Qed.

(** C4, amended: the cost computation fails exactly for task types
    missing from [TASK_POWER] (and [prioritize_tasks] fails exactly when
    some task has such a type); any duration, also zero or negative, is
    accepted and gives [power * duration / 1000]. *)
Theorem task_energy_rejects_unknown_type_only :
  (forall (ty : string) (d : Q),
     calculate_task_energy ty d = None <-> lookup ty RoverConfig.TASK_POWER = None) /\
  (forall (ty : string) (d p : Q),
     lookup ty RoverConfig.TASK_POWER = Some p ->
     calculate_task_energy ty d = Some (p * d / 1000)) /\
  (forall ts : list Mission.Task,
     Mission.prioritize_tasks ts = None <->
     exists t, In t ts /\ lookup (Mission.task_type t) RoverConfig.TASK_POWER = None).
Proof.
  split; [|split].
  - intros ty d. unfold calculate_task_energy.
    destruct (lookup ty RoverConfig.TASK_POWER); split; congruence.
  - intros ty d p H. unfold calculate_task_energy. now rewrite H.
  - intros ts. unfold Mission.prioritize_tasks.
    assert (Hc : forall t, Mission.calculate_task_priority t = None <->
                           lookup (Mission.task_type t) RoverConfig.TASK_POWER = None).
    { intros t. unfold Mission.calculate_task_priority, calculate_task_energy.
      destruct (lookup (Mission.task_type t) RoverConfig.TASK_POWER); split; congruence. }
    destruct (map_option Mission.calculate_task_priority ts) eqn:E.
    + split; [discriminate|]. intros [t [Ht Hn]].
      assert (H : map_option Mission.calculate_task_priority ts = None)
        by (apply map_option_none; exists t; split; [exact Ht|now apply Hc]).
      congruence.
    + split; [intros _|reflexivity].
      destruct (proj1 (map_option_none _ _) E) as [t [Ht Hn]].
      exists t. split; [exact Ht|now apply Hc].
Qed.

Lemma task_energy_rejects_unknown_type_only_witness :
  lookup "imaging" RoverConfig.TASK_POWER = Some 30.0 /\
  calculate_task_energy "imaging" 2 = Some (30.0 * 2 / 1000) /\
  (Mission.prioritize_tasks [Mission.new_task "X" "laser" 1 5 5] = None)%string.
Proof.
  split; [reflexivity|]. split.
  - apply (proj1 (proj2 task_energy_rejects_unknown_type_only)). reflexivity.
  - apply (proj2 (proj2 task_energy_rejects_unknown_type_only)).
    exists (Mission.new_task "X" "laser" 1 5 5)%string. split; [now left|reflexivity].
Defined.

(** C4 fails: a zero or negative duration is not rejected. *)
Lemma task_energy_accepts_nonpositive_duration :
  calculate_task_energy "imaging" 0 = Some (30.0 * 0 / 1000) /\
  calculate_task_energy "imaging" (-1) = Some (30.0 * (-1) / 1000).
Proof. split; reflexivity. Qed.

Lemma our_priority_five_terms (t : SVTask) :
  our_priority t == weighted_cost_spec (energy t) (urgency t) (reward t).
Proof.
  unfold our_priority, weighted_cost_spec.
  destruct (Qlt_le_dec 8.0 (urgency t)), (Qlt_le_dec 8 (urgency t)); try qlra;
  destruct (Qlt_le_dec (urgency t) 3.0), (Qlt_le_dec (urgency t) 3); try qlra;
  unfold Qdiv; ring.
Qed.

Lemma calculate_task_priority_key (t : Mission.Task) (p : Q * Mission.Task) :
  Mission.calculate_task_priority t = Some p ->
  fst p = mission_priority_key (snd p) /\
  exists e, calculate_task_energy (Mission.task_type t) (Mission.duration_hours t) = Some e /\
            snd p = Mission.set_energy_cost t e.
Proof.
  unfold Mission.calculate_task_priority.
  destruct (calculate_task_energy (Mission.task_type t) (Mission.duration_hours t)) as [e|];
    [|discriminate].
  intros H. injection H as <-. split; [reflexivity|]. exists e. split; reflexivity.
Qed.

Lemma map_option_keys (ts : list Mission.Task) (keyed : list (Q * Mission.Task)) :
  map_option Mission.calculate_task_priority ts = Some keyed ->
  Forall (SortFacts.decorated mission_priority_key) keyed /\
  Forall2 (fun t c => exists e,
             calculate_task_energy (Mission.task_type t) (Mission.duration_hours t) = Some e /\
             c = Mission.set_energy_cost t e) ts (map snd keyed).
Proof.
  revert keyed. induction ts as [|t ts IH]; intros keyed H; simpl in H.
  - injection H as <-. split; constructor.
  - destruct (Mission.calculate_task_priority t) as [p|] eqn:Ep; [|discriminate].
    destruct (map_option Mission.calculate_task_priority ts) as [ks|] eqn:Er; [|discriminate].
    injection H as <-. destruct (IH ks eq_refl) as [Hd Hf].
    destruct (calculate_task_priority_key t p Ep) as [Hk He].
    split; constructor; auto.
Qed.

(** C5, amended: the benchmark's primary policy
    [our_prioritization_scheduler] sorts stably ascending by the full
    five-term cost; the mission simulator's [prioritize_tasks] sorts
    stably ascending by its own three-term key
    [1.0*energy + 0.5/max(urgency, 0.1) - 2.0*reward], over the tasks with
    their energy costs cached. *)
Theorem primary_policy_orders_by_cost :
  (forall ts : list SVTask,
     let out := our_prioritization_scheduler ts in
     Sorted (fun a b => our_priority a <= our_priority b) out /\
     Permutation out ts /\
     (forall q, filter (fun x => Qeq_bool (our_priority x) q) out
                = filter (fun x => Qeq_bool (our_priority x) q) ts)) /\
  (forall t : SVTask, our_priority t == weighted_cost_spec (energy t) (urgency t) (reward t)) /\
  (forall (ts out : list Mission.Task),
     Mission.prioritize_tasks ts = Some out ->
     exists cached,
       Forall2 (fun t c => exists e,
                  calculate_task_energy (Mission.task_type t) (Mission.duration_hours t) = Some e /\
                  c = Mission.set_energy_cost t e) ts cached /\
       Sorted (fun a b => mission_priority_key a <= mission_priority_key b) out /\
       Permutation out cached /\
       (forall q, filter (fun x => Qeq_bool (mission_priority_key x) q) out
                  = filter (fun x => Qeq_bool (mission_priority_key x) q) cached)).
Proof.
  split; [|split].
  - intros ts. exact (SortFacts.py_sorted_spec our_priority ts).
  - exact our_priority_five_terms.
  - intros ts out H. unfold Mission.prioritize_tasks in H.
    destruct (map_option Mission.calculate_task_priority ts) as [keyed|] eqn:E;
      [|discriminate].
    injection H as <-. destruct (map_option_keys ts keyed E) as [Hd Hf].
    exists (map snd keyed). split; [exact Hf|].
    assert (Hs : Forall (SortFacts.decorated mission_priority_key) (sort_by_key keyed)).
    { eapply Permutation_Forall; [symmetry; apply SortFacts.sort_perm|exact Hd]. }
    split; [|split].
    + apply SortFacts.sorted_undecorate; [exact Hs|apply SortFacts.sort_sorted].
    + apply Permutation_map, SortFacts.sort_perm.
    + intros q. rewrite SortFacts.filter_undecorate by exact Hs.
      rewrite SortFacts.sort_stable. symmetry. now apply SortFacts.filter_undecorate.
Qed.

Lemma primary_policy_orders_by_cost_witness :
  exists out, Mission.prioritize_tasks prio_tasks = Some out /\
  Sorted (fun a b => mission_priority_key a <= mission_priority_key b) out.
Proof.
  exists [Mission.set_energy_cost (Mission.new_task "B" "drilling" 1 5 11) (120.0 * 1 / 1000);
          Mission.set_energy_cost (Mission.new_task "A" "imaging" 1 5 10) (30.0 * 1 / 1000)]%string.
  split; [reflexivity|].
  destruct (proj2 (proj2 primary_policy_orders_by_cost) prio_tasks _ eq_refl)
    as [cached [_ [Hs _]]].
  exact Hs.
Defined.

(** C5 fails: the mission simulator's ordering puts the drilling task
    first although the five-term cost of the imaging task is lower. *)
Lemma mission_priority_not_five_terms :
  match Mission.prioritize_tasks prio_tasks with
  | Some [x; y] =>
      Mission.task_id x = "B"%string /\
      weighted_cost_spec (Mission.energy_cost y) (Mission.urgency y) (Mission.reward y)
      < weighted_cost_spec (Mission.energy_cost x) (Mission.urgency x) (Mission.reward x)
  | _ => False
  end.
Proof. vm_compute. split; reflexivity. Qed.

Definition draw_ok (d : TaskDraw) : Prop :=
  (1 <= draw_type_index d <= 6)%Z /\ 0 <= draw_duration d < 1 /\
  0 <= draw_urgency d < 1 /\ 0 <= draw_reward d < 1.

Lemma make_task_ok (i : nat) (d : TaskDraw) :
  draw_ok d -> exists t, make_task i d = Some t /\ 0.025 <= energy t.
Proof.
  intros [Hty [Hdur _]]. unfold make_task.
  assert (Hk : forall p : Q, 25 <= p ->
            0.025 <= p * (1.0 + draw_duration d * 6.0) / 1000).
  { intros p Hp.
    assert (E : p * (1.0 + draw_duration d * 6.0) / 1000
                == p * (1.0 + draw_duration d * 6.0) * (1 # 1000)) by reflexivity.
    rewrite E. assert (0 <= p * draw_duration d).
    { apply Qmult_le_0_compat; qlra. }
    qlra. }
  assert (Hc : (draw_type_index d = 1 \/ draw_type_index d = 2 \/ draw_type_index d = 3 \/
                draw_type_index d = 4 \/ draw_type_index d = 5 \/ draw_type_index d = 6)%Z)
    by lia.
  destruct Hc as [E|[E|[E|[E|[E|E]]]]]; rewrite E; simpl;
    eexists; (split; [reflexivity|]); simpl; apply Hk; qlra.
Qed.

Lemma make_tasks_ok (ds : list TaskDraw) :
  forall i, Forall draw_ok ds ->
  exists ts, make_tasks i ds = Some ts /\ length ts = length ds /\
             Forall (fun t => 0.025 <= energy t) ts.
Proof.
  induction ds as [|d ds IH]; intros i Hall; simpl.
  - exists []. repeat constructor.
  - inversion Hall as [|? ? Hd Hds]; subst.
    destruct (make_task_ok i d Hd) as [t [Ht He]].
    destruct (IH (S i) Hds) as [ts [Hts [Hl Hf]]].
    rewrite Ht, Hts. exists (t :: ts). simpl. repeat split; auto.
Qed.

Lemma total_energy_nil : total_energy_of [] == 0.
Proof. reflexivity. Qed.

Lemma total_energy_lower (ts : list SVTask) :
  Forall (fun t => 0.025 <= energy t) ts ->
  forall n, (n <= length ts)%nat -> 0.025 * inject_Z (Z.of_nat n) <= total_energy_of ts.
Proof.
  induction 1 as [|t ts Ht Hts IH]; intros n Hn.
  - simpl in Hn. assert (n = O) by lia. subst. rewrite total_energy_nil.
    change (inject_Z (Z.of_nat 0)) with 0. qlra.
  - rewrite total_energy_cons. destruct n as [|n].
    + specialize (IH O ltac:(lia)). change (inject_Z (Z.of_nat 0)) with 0 in *. qlra.
    + simpl in Hn. specialize (IH n ltac:(lia)).
      rewrite Nat2Z.inj_succ, <- Z.add_1_r, inject_Z_plus.
      change (inject_Z 1) with 1. qlra.
Qed.

Lemma total_energy_scale (k : Q) (ts : list SVTask) :
  total_energy_of (map (scale_task k) ts) == k * total_energy_of ts.
Proof.
  induction ts as [|t ts IH]; simpl.
  - rewrite total_energy_nil. qlra.
  - rewrite !total_energy_cons, IH. simpl. ring.
Qed.

(** C7: every scenario the generator builds from in-range draws has a
    total task energy strictly above its usable energy. *)
Theorem generated_scenario_exceeds_usable (r_level : Q) (draws : list TaskDraw)
  (Hr : 0 <= r_level < 1) (Hn : (12 <= length draws <= 25)%nat)
  (Hd : Forall draw_ok draws) :
  exists sc, generate_random_scenario r_level draws = Some sc /\
             usable_energy_for (energy_level sc) < total_energy_of (tasks sc).
Proof.
  destruct (make_tasks_ok draws 0 Hd) as [ts [Hts [Hl Hf]]].
  assert (Htot : 0.3 <= total_energy_of ts).
  { pose proof (total_energy_lower ts Hf 12 ltac:(lia)) as H.
    change (inject_Z (Z.of_nat 12)) with 12 in H. qlra. }
  set (lvl := 0.05 + r_level * 0.15).
  assert (Hu : 0 < usable_energy_for lvl).
  { unfold usable_energy_for, battery_capacity, terrain_energy, reserve_ratio.
    destruct (GreedyFacts.pymax_spec 0 (42.24 * lvl - 0.061 - (42.24 * lvl - 0.061) * 0.20))
      as [_ [Hm _]]. unfold lvl in *. qlra. }
  unfold generate_random_scenario. fold lvl. rewrite Hts.
  destruct (Qle_bool (total_energy_of ts) (usable_energy_for lvl * 2)) eqn:E.
  - eexists. split; [reflexivity|]. simpl.
    rewrite total_energy_scale.
    unfold pymax. destruct (Qlt_le_dec (total_energy_of ts) 0.1) as [Hlt|_]; [qlra|].
    assert (Hne : ~ total_energy_of ts == 0) by qlra.
    setoid_replace (usable_energy_for lvl * 3 / total_energy_of ts * total_energy_of ts)
      with (usable_energy_for lvl * 3) by (field; exact Hne).
    qlra.
  - eexists. split; [reflexivity|]. simpl.
    apply GreedyFacts.Qle_bool_false in E. qlra.
Qed.

Lemma generated_scenario_exceeds_usable_witness :
  exists sc, generate_random_scenario 0.5 (repeat (mkDraw 1 0 0 0) 12) = Some sc /\
             usable_energy_for (energy_level sc) < total_energy_of (tasks sc).
Proof.
  apply generated_scenario_exceeds_usable.
  - split; qlra.
  - simpl; lia.
  - apply Forall_forall. intros d Hd. apply repeat_spec in Hd. subst d.
    unfold draw_ok. simpl. repeat split; qlra || lia.
Defined.

End PolicyFacts.

(** * The physical model and the effect size *)
Module PhysicsFacts.
Import EnergyModel.
Local Open Scope R_scope.

(** C6: the segment energy computation fails iff the velocity is not
    positive, whatever the distance, slope, roughness and mass; for a
    positive velocity it returns [time = distance / (velocity * 3600)]
    hours and [energy = power * time / 1000] kWh. *)
Theorem energy_consumption_velocity_guard
  (distance slope velocity roughness : R) (mass : option R) :
  (calculate_energy_consumption distance slope velocity roughness mass = None
   <-> velocity <= 0) /\
  (0 < velocity ->
   exists b, calculate_energy_consumption distance slope velocity roughness mass = Some b /\
     time_hours b = distance / (velocity * 3600) /\
     power_watts b = calculate_power_consumption slope velocity roughness mass /\
     energy_kwh b = power_watts b * time_hours b / 1000).
Proof.
  unfold calculate_energy_consumption.
  destruct (Rle_dec velocity 0) as [Hle|Hgt].
  - split; [split; auto|]. intros Hpos. exfalso. rlra.
  - split; [split; [discriminate|intros H; contradiction]|].
    intros _. eexists. split; [reflexivity|]. simpl. repeat split.
Qed.

Lemma energy_consumption_velocity_guard_witness :
  exists b, calculate_energy_consumption 100 5 0.042 0.1 None = Some b /\
     time_hours b = 100 / (0.042 * 3600) /\
     power_watts b = calculate_power_consumption 5 0.042 0.1 None /\
     energy_kwh b = power_watts b * time_hours b / 1000.
Proof.
  apply (proj2 (energy_consumption_velocity_guard 100 5 0.042 0.1 None)). rlra.
Defined.

(** C8 fails: on a 180 degree slope the rolling resistance is negative. *)
Lemma rolling_resistance_negative_at_180 :
  calculate_rolling_resistance (Some 899) 180 < 0.
Proof.
  unfold calculate_rolling_resistance, radians, mass_or_default,
    ROLLING_RESISTANCE_COEFF, GRAVITY_MARS.
  replace (180 * PI / 180) with PI by field. rewrite cos_PI. rlra.
Qed.

(** C8, amended: the rolling resistance is [mu * mass * g * cos(slope in
    radians)], with the sign of the cosine: it is non-negative for a
    non-negative mass and a slope in [-90, 90] degrees, negative for a
    positive mass and a slope strictly between 90 and 270 degrees (e.g.
    180), and unchanged when the slope is shifted by 360 degrees. *)
Theorem rolling_resistance_formula_nonneg (mass : option R) (slope : R) :
  calculate_rolling_resistance mass slope
  = ROLLING_RESISTANCE_COEFF * mass_or_default mass * GRAVITY_MARS * cos (slope * PI / 180) /\
  (0 <= mass_or_default mass -> -90 <= slope <= 90 ->
   0 <= calculate_rolling_resistance mass slope) /\
  (0 < mass_or_default mass -> 90 < slope < 270 ->
   calculate_rolling_resistance mass slope < 0) /\
  calculate_rolling_resistance mass (slope + 360) = calculate_rolling_resistance mass slope.
Proof.
  pose proof PI_RGT_0 as Hpi.
  unfold calculate_rolling_resistance, radians. split; [ring|]. split; [|split].
  - intros Hm [Hlo Hhi].
    assert (Hc : 0 <= cos (slope * PI / 180)).
    { apply cos_ge_0; [nra|nra]. }
    unfold ROLLING_RESISTANCE_COEFF, GRAVITY_MARS.
    apply Rmult_le_pos; [rlra|]. apply Rmult_le_pos; [|exact Hc]. rlra.
  - intros Hm [Hlo Hhi].
    assert (Hc : cos (slope * PI / 180) < 0).
    { apply cos_lt_0; [nra|nra]. }
    unfold ROLLING_RESISTANCE_COEFF, GRAVITY_MARS.
    assert (Hk : 0 < ROLLING_RESISTANCE_COEFF * (mass_or_default mass * GRAVITY_MARS))
      by (unfold ROLLING_RESISTANCE_COEFF, GRAVITY_MARS; nra).
    unfold ROLLING_RESISTANCE_COEFF, GRAVITY_MARS in Hk.
    rewrite <- Rmult_assoc. nra.
  - replace ((slope + 360) * PI / 180) with (slope * PI / 180 + 2 * PI) by field.
    rewrite cos_plus, cos_2PI, sin_2PI. ring.
Qed.

Lemma rolling_resistance_formula_nonneg_witness :
  0 <= calculate_rolling_resistance None 30 /\
  calculate_rolling_resistance None 200 < 0.
Proof.
  split.
  - apply (proj1 (proj2 (rolling_resistance_formula_nonneg None 30))).
    + unfold mass_or_default, MASS. rlra.
    + split; rlra.
  - apply (proj1 (proj2 (proj2 (rolling_resistance_formula_nonneg None 200)))).
    + unfold mass_or_default, MASS. rlra.
    + split; rlra.
Defined.

Import Stats.

(** C9: for non-empty groups, Cohen's d is [(mean1 - mean2) / pooled_std]
    with [pooled_std = sqrt((var1 + var2) / 2)] when [pooled_std] is not
    0, and 0 when it is; it is 0 for two identical groups. *)
Theorem cohens_d_formula (group1 group2 : list R)
  (H1 : group1 <> []) (H2 : group2 <> []) :
  let pooled_std := sqrt ((group_variance group1 + group_variance group2) / 2) in
  (pooled_std <> 0 ->
   calculate_cohens_d group1 group2 = (mean group1 - mean group2) / pooled_std) /\
  (pooled_std = 0 -> calculate_cohens_d group1 group2 = 0) /\
  calculate_cohens_d group1 group1 = 0.
Proof.
  assert (L1 : Nat.eqb (length group1) 0 = false)
    by (destruct group1; [contradiction|reflexivity]).
  assert (L2 : Nat.eqb (length group2) 0 = false)
    by (destruct group2; [contradiction|reflexivity]).
  cbv zeta. unfold calculate_cohens_d. rewrite L1, L2. simpl.
  split; [|split].
  - intros Hp. destruct (Req_dec_T _ 0); [contradiction|reflexivity].
  - intros Hp. destruct (Req_dec_T _ 0); [reflexivity|contradiction].
  - destruct (Req_dec_T _ 0); [reflexivity|].
    unfold Rdiv. rewrite Rminus_diag. ring.
Qed.

Lemma cohens_d_formula_witness :
  let pooled_std := sqrt ((group_variance [1; 3] + group_variance [2; 2]) / 2) in
  (pooled_std <> 0 ->
   calculate_cohens_d [1; 3] [2; 2] = (mean [1; 3] - mean [2; 2]) / pooled_std) /\
  (pooled_std = 0 -> calculate_cohens_d [1; 3] [2; 2] = 0) /\
  calculate_cohens_d [1; 3] [1; 3] = 0.
Proof. apply cohens_d_formula; discriminate. Defined.

End PhysicsFacts.

(** * The physical model, terrain traversal and mission estimates *)
Module TerrainFacts.
Import EnergyModel Terrain.
Local Open Scope R_scope.

Lemma radians_neg (x : R) : radians (- x) = - radians x.
Proof. unfold radians. field. Qed.

Lemma cos_radians_nonneg (slope : R) : -90 <= slope <= 90 -> 0 <= cos (radians slope).
Proof.
  intros [H1 H2]. unfold radians. pose proof PI_RGT_0.
  apply cos_ge_0; nra.
Qed.

Lemma power_nonneg_aux (slope velocity roughness : R) (mass : option R) :
  0 <= mass_or_default mass -> -90 <= slope <= 90 -> 0 <= velocity -> 0 <= roughness ->
  0 <= calculate_power_consumption slope velocity roughness mass.
Proof.
  intros Hm Hs Hv Hr.
  unfold calculate_power_consumption, calculate_rolling_resistance, calculate_roughness_penalty.
  pose proof (cos_radians_nonneg slope Hs) as Hc.
  pose proof (Rabs_pos (calculate_slope_force slope mass)) as Ha.
  set (F := Rabs (calculate_slope_force slope mass)) in *.
  set (c := cos (radians slope)) in *.
  set (m := mass_or_default mass) in *.
  unfold ROLLING_RESISTANCE_COEFF, GRAVITY_MARS, MOTOR_EFFICIENCY, DRIVETRAIN_EFFICIENCY.
  assert (Hn : 0 <= m * 3.71 * c) by (apply Rmult_le_pos; [rlra|exact Hc]).
  assert (Hp : 0 <= (F + 0.15 * (m * 3.71 * c)) * velocity) by (apply Rmult_le_pos; rlra).
  assert (Hq : 0 <= roughness * velocity * 50.0) by (apply Rmult_le_pos; [apply Rmult_le_pos|]; rlra).
  unfold Rdiv. apply Rmult_le_pos; [rlra|]. apply Rlt_le, Rinv_0_lt_compat. rlra.
Qed.

Lemma energy_consumption_none (d s v r : R) (m : option R) :
  calculate_energy_consumption d s v r m = None <-> v <= 0.
Proof.
  unfold calculate_energy_consumption. destruct (Rle_dec v 0); split; intros H;
    try discriminate; try reflexivity; try exact r0; contradiction.
Qed.

Lemma energy_consumption_some (d s v r : R) (m : option R) :
  0 < v ->
  calculate_energy_consumption d s v r m
  = Some (mkBreakdown d (d / (v * 3600)) (calculate_power_consumption s v r m)
            (calculate_power_consumption s v r m * (d / (v * 3600)) / 1000) s v r).
Proof.
  intros Hv. unfold calculate_energy_consumption.
  destruct (Rle_dec v 0); [rlra|reflexivity].
Qed.

Lemma segment_energy_closed_form (d s v r : R) (m : option R) :
  0 < v ->
  calculate_power_consumption s v r m * (d / (v * 3600)) / 1000
  = (Rabs (calculate_slope_force s m) + calculate_rolling_resistance m s + r * 50)
    * d / (MOTOR_EFFICIENCY * DRIVETRAIN_EFFICIENCY * 3600 * 1000).
Proof.
  intros Hv. unfold calculate_power_consumption, calculate_roughness_penalty,
    MOTOR_EFFICIENCY, DRIVETRAIN_EFFICIENCY.
  unfold Q2R; cbn [Qnum Qden]. field. rlra.
Qed.
Lemma power_neg_slope (slope velocity roughness : R) (mass : option R) :
  calculate_power_consumption (- slope) velocity roughness mass
  = calculate_power_consumption slope velocity roughness mass.
Proof.
  unfold calculate_power_consumption, calculate_slope_force, calculate_rolling_resistance.
  rewrite radians_neg, sin_neg, cos_neg.
  replace (mass_or_default mass * GRAVITY_MARS * - sin (radians slope))
    with (- (mass_or_default mass * GRAVITY_MARS * sin (radians slope))) by ring.
  now rewrite Rabs_Ropp.
Qed.

(** The energy of one segment, for a positive velocity, without the
    velocity: [(|slope force| + rolling resistance + 50 * roughness) *
    distance / (0.85 * 0.90 * 3600 * 1000)]. *)
Lemma traversal_loop_closed (v : R) (segs : list Segment) :
  0 < v ->
  forall e d t,
  exists e' d' t', traversal_loop v segs (e, d, t) = Some (e', d', t') /\
    e' = e + fold_right Rplus 0
               (map (fun s => (Rabs (calculate_slope_force (slope_deg s) None)
                               + calculate_rolling_resistance None (slope_deg s)
                               + roughness s * 50) * distance s
                              / (MOTOR_EFFICIENCY * DRIVETRAIN_EFFICIENCY * 3600 * 1000))
                    segs) /\
    d' = d + fold_right Rplus 0 (map distance segs) /\
    t' = t + fold_right Rplus 0 (map distance segs) / (v * 3600).
Proof.
  intros Hv. induction segs as [|s segs IH]; intros e d t.
  - exists e, d, t. simpl. repeat split; [ring|ring|field; rlra].
  - simpl traversal_loop. rewrite energy_consumption_some by exact Hv.
    cbn iota beta. cbn [energy_kwh distance_m time_hours].
    destruct (IH (e + calculate_power_consumption (slope_deg s) v (roughness s) None
                      * (distance s / (v * 3600)) / 1000)
                 (d + distance s) (t + distance s / (v * 3600)))
      as [e' [d' [t' [Hrun [He [Hd Ht]]]]]].
    exists e', d', t'. split; [exact Hrun|].
    rewrite He, Hd, Ht, segment_energy_closed_form by exact Hv. simpl.
    repeat split; [ring|ring|field; rlra].
Qed.

Lemma traversal_loop_none (v : R) (segs : list Segment) :
  forall acc, traversal_loop v segs acc = None <-> segs <> [] /\ v <= 0.
Proof.
  destruct segs as [|s segs]; intros acc; simpl.
  - split; [discriminate|]. intros [H _]. now contradiction H.
  - destruct (Rle_dec v 0) as [Hle|Hgt].
    + assert (E : calculate_energy_consumption (distance s) (slope_deg s) v (roughness s) None = None)
        by now apply energy_consumption_none.
      rewrite E. split; [intros _; split; [discriminate|exact Hle]|reflexivity].
    + rewrite energy_consumption_some by rlra.
      destruct acc as [[e d] t].
      destruct (traversal_loop_closed v segs ltac:(rlra)
                  (e + calculate_power_consumption (slope_deg s) v (roughness s) None
                       * (distance s / (v * 3600)) / 1000)
                  (d + distance s) (t + distance s / (v * 3600)))
        as [e' [d' [t' [Hrun _]]]].
      cbn iota beta. cbn [energy_kwh distance_m time_hours]. rewrite Hrun.
      split; [discriminate|]. intros [_ H]. contradiction.
Qed.

(** X1: uphill and downhill cost the same.  [calculate_power_consumption]
    takes the absolute value of the slope force and the cosine is even,
    so the power on a slope of [-s] degrees equals the power on [s]
    degrees, and so does the energy of a segment. *)
Theorem slope_direction_irrelevant (distance slope velocity roughness : R) (mass : option R) :
  calculate_power_consumption (- slope) velocity roughness mass
  = calculate_power_consumption slope velocity roughness mass /\
  option_map energy_kwh (calculate_energy_consumption distance (- slope) velocity roughness mass)
  = option_map energy_kwh (calculate_energy_consumption distance slope velocity roughness mass).
Proof.
  split; [apply power_neg_slope|].
  unfold calculate_energy_consumption.
  destruct (Rle_dec velocity 0); [reflexivity|]. simpl. now rewrite power_neg_slope.
Qed.

(** X2: on admissible terrain (distance and roughness non-negative, slope
    within [-90, 90] degrees, non-negative mass) and a positive velocity,
    a segment's power and energy are non-negative. *)
Theorem segment_energy_nonneg (distance slope velocity roughness : R) (mass : option R)
  (Hd : 0 <= distance) (Hs : -90 <= slope <= 90) (Hv : 0 < velocity)
  (Hr : 0 <= roughness) (Hm : 0 <= mass_or_default mass) :
  exists b, calculate_energy_consumption distance slope velocity roughness mass = Some b /\
    0 <= power_watts b /\ 0 <= energy_kwh b.
Proof.
  rewrite energy_consumption_some by exact Hv. eexists. split; [reflexivity|]. simpl.
  pose proof (power_nonneg_aux slope velocity roughness mass Hm Hs ltac:(rlra) Hr) as Hp.
  split; [exact Hp|].
  unfold Rdiv. apply Rmult_le_pos; [|rlra]. apply Rmult_le_pos; [exact Hp|].
  apply Rmult_le_pos; [exact Hd|]. apply Rlt_le, Rinv_0_lt_compat. rlra.
Qed.

Lemma segment_energy_nonneg_witness :
  exists b, calculate_energy_consumption 100 (-15) 0.042 0.3 None = Some b /\
    0 <= power_watts b /\ 0 <= energy_kwh b.
Proof.
  apply segment_energy_nonneg; unfold mass_or_default, MASS; rlra.
Defined.

(** X3: for positive velocities the energy does not depend on the
    velocity: the power grows linearly with it and the time shrinks
    inversely.  This holds for one segment and for a whole traversal,
    whose total energy and resulting battery level are the same at any
    two positive velocities. *)
Theorem energy_independent_of_velocity (distance slope roughness v1 v2 : R) (mass : option R)
  (level : R) (segs : list Segment) (H1 : 0 < v1) (H2 : 0 < v2) :
  option_map energy_kwh (calculate_energy_consumption distance slope v1 roughness mass)
  = option_map energy_kwh (calculate_energy_consumption distance slope v2 roughness mass) /\
  option_map total_energy_kwh (simulate_terrain_traversal level segs (Some v1))
  = option_map total_energy_kwh (simulate_terrain_traversal level segs (Some v2)) /\
  option_map battery_level_after (simulate_terrain_traversal level segs (Some v1))
  = option_map battery_level_after (simulate_terrain_traversal level segs (Some v2)).
Proof.
  split.
  - rewrite !energy_consumption_some by assumption. simpl.
    rewrite !segment_energy_closed_form by assumption. reflexivity.
  - unfold simulate_terrain_traversal.
    destruct (traversal_loop_closed v1 segs H1 0 0 0) as [e1 [d1 [t1 [R1 [E1 _]]]]].
    destruct (traversal_loop_closed v2 segs H2 0 0 0) as [e2 [d2 [t2 [R2 [E2 _]]]]].
    rewrite R1, R2. simpl. rewrite E1, E2. split; reflexivity.
Qed.

Lemma energy_independent_of_velocity_witness :
  option_map energy_kwh (calculate_energy_consumption 100 10 0.01 0.2 None)
  = option_map energy_kwh (calculate_energy_consumption 100 10 0.045 0.2 None) /\
  option_map total_energy_kwh (simulate_terrain_traversal 1 [mkSegment 100 10 0.2] (Some 0.01))
  = option_map total_energy_kwh (simulate_terrain_traversal 1 [mkSegment 100 10 0.2] (Some 0.045)) /\
  option_map battery_level_after (simulate_terrain_traversal 1 [mkSegment 100 10 0.2] (Some 0.01))
  = option_map battery_level_after (simulate_terrain_traversal 1 [mkSegment 100 10 0.2] (Some 0.045)).
Proof. apply energy_independent_of_velocity; rlra. Defined.

(** X4: [simulate_terrain_traversal] fails (the [ValueError] of
    [calculate_energy_consumption]) exactly when there is at least one
    segment and the velocity used (0.042 m/s when none is given) is not
    positive.  Without segments it never fails, whatever the velocity,
    reports zero distance, time and energy and leaves the battery level
    unchanged. *)
Theorem terrain_traversal_fails_iff (level : R) (segs : list Segment) (velocity : option R) :
  (simulate_terrain_traversal level segs velocity = None
   <-> segs <> [] /\ dict_get velocity NOMINAL_VELOCITY <= 0) /\
  exists summary, simulate_terrain_traversal level [] velocity = Some summary /\
    total_distance_m summary = 0 /\ total_time_hours summary = 0 /\
    total_energy_kwh summary = 0 /\ battery_level_after summary = level.
Proof.
  split.
  - unfold simulate_terrain_traversal.
    replace (match velocity with None => NOMINAL_VELOCITY | Some v => v end)
      with (dict_get velocity NOMINAL_VELOCITY) by now destruct velocity.
    rewrite <- (traversal_loop_none (dict_get velocity NOMINAL_VELOCITY) segs (0, 0, 0)).
    destruct (traversal_loop (dict_get velocity NOMINAL_VELOCITY) segs (0, 0, 0))
      as [[[e d] t]|]; split; congruence.
  - eexists. split; [reflexivity|]. simpl. repeat split.
    unfold Rdiv. rewrite Rmult_0_l. ring.
Qed.

(** X5: for a positive velocity [v] the traversal succeeds; its distance is
    the sum of the segment distances, its time is that distance over
    [v * 3600] (it does not depend on slope or roughness), and the
    battery level drops by the energy over the 42.24 kWh capacity.  On
    admissible terrain (non-negative distances and roughness, slopes
    within [-90, 90] degrees) the energy is non-negative, so the battery
    level never rises. *)
Theorem terrain_traversal_totals (level : R) (segs : list Segment) (velocity : option R)
  (Hv : 0 < dict_get velocity NOMINAL_VELOCITY) :
  exists summary, simulate_terrain_traversal level segs velocity = Some summary /\
    total_distance_m summary = fold_right Rplus 0 (map distance segs) /\
    total_time_hours summary
      = total_distance_m summary / (dict_get velocity NOMINAL_VELOCITY * 3600) /\
    battery_level_after summary = level - total_energy_kwh summary / BATTERY_CAPACITY /\
    (Forall (fun s => 0 <= distance s /\ -90 <= slope_deg s <= 90 /\ 0 <= roughness s) segs ->
     0 <= total_energy_kwh summary /\ battery_level_after summary <= level).
Proof.
  unfold simulate_terrain_traversal.
  replace (match velocity with None => NOMINAL_VELOCITY | Some v => v end)
    with (dict_get velocity NOMINAL_VELOCITY) by now destruct velocity.
  set (v := dict_get velocity NOMINAL_VELOCITY) in *.
  destruct (traversal_loop_closed v segs Hv 0 0 0) as [e [d [t [Hrun [He [Hd Ht]]]]]].
  rewrite Hrun. eexists. split; [reflexivity|]. simpl.
  split; [rewrite Hd; ring|]. split; [rewrite Ht, Hd; field; rlra|].
  split; [reflexivity|].
  intros Hall.
  assert (Hnn : 0 <= e).
  { rewrite He. rewrite Rplus_0_l. clear Hrun He Hd Ht.
    induction Hall as [|s segs [Hds [Hss Hrs]] _ IH]; simpl; [rlra|].
    apply Rplus_le_le_0_compat; [|exact IH].
    pose proof (Rabs_pos (calculate_slope_force (slope_deg s) None)) as Ha.
    pose proof (cos_radians_nonneg (slope_deg s) Hss) as Hc.
    unfold calculate_rolling_resistance, mass_or_default, MASS, GRAVITY_MARS,
      ROLLING_RESISTANCE_COEFF, MOTOR_EFFICIENCY, DRIVETRAIN_EFFICIENCY.
    unfold Rdiv. apply Rmult_le_pos; [apply Rmult_le_pos; [|exact Hds]|].
    - assert (0 <= 899.0 * 3.71 * cos (radians (slope_deg s)))
        by (apply Rmult_le_pos; [rlra|exact Hc]). rlra.
    - apply Rlt_le, Rinv_0_lt_compat. rlra. }
  split; [exact Hnn|].
  unfold BATTERY_CAPACITY. unfold Rdiv.
  assert (0 <= e * / 42.24) by (apply Rmult_le_pos; [exact Hnn|apply Rlt_le, Rinv_0_lt_compat; rlra]).
  rlra.
Qed.

Lemma terrain_traversal_totals_witness :
  exists summary, simulate_terrain_traversal 1 [mkSegment 100 5 0.1; mkSegment 50 (-20) 0.4] None
    = Some summary /\
    total_distance_m summary = fold_right Rplus 0 (map distance [mkSegment 100 5 0.1; mkSegment 50 (-20) 0.4]) /\
    total_time_hours summary
      = total_distance_m summary / (dict_get None NOMINAL_VELOCITY * 3600) /\
    battery_level_after summary = 1 - total_energy_kwh summary / BATTERY_CAPACITY /\
    (Forall (fun s => 0 <= distance s /\ -90 <= slope_deg s <= 90 /\ 0 <= roughness s)
       [mkSegment 100 5 0.1; mkSegment 50 (-20) 0.4] ->
     0 <= total_energy_kwh summary /\ battery_level_after summary <= 1).
Proof.
  apply terrain_traversal_totals. unfold dict_get, NOMINAL_VELOCITY. rlra.
Defined.
Lemma movement_loop_none (segs : list SegmentDict) :
  forall acc, movement_loop segs acc = None
  <-> exists s, In s segs /\ dict_get (sd_velocity s) NOMINAL_VELOCITY <= 0.
Proof.
  induction segs as [|s segs IH]; intros acc; simpl.
  - split; [discriminate|]. intros [? [[] _]].
  - destruct (Rle_dec (dict_get (sd_velocity s) NOMINAL_VELOCITY) 0) as [Hle|Hgt].
    + rewrite (proj2 (energy_consumption_none _ _ _ _ _) Hle).
      split; [intros _; exists s; split; [now left|exact Hle]|reflexivity].
    + rewrite energy_consumption_some by rlra. destruct acc as [e t].
      cbn iota beta. rewrite IH. split.
      * intros [x [Hx Hv]]. exists x. split; [now right|exact Hv].
      * intros [x [[<-|Hx] Hv]]; [contradiction|]. exists x. split; assumption.
Qed.

Lemma task_loop_none (tasks : list TaskDict) :
  forall acc, task_loop tasks acc = None
  <-> exists t, In t tasks /\ lookup (td_type t) RoverConfig.TASK_POWER = None.
Proof.
  induction tasks as [|t tasks IH]; intros acc; cbn [task_loop In].
  - split; [discriminate|]. intros [? [[] _]].
  - unfold calculate_task_energy at 1.
    destruct (lookup (td_type t) RoverConfig.TASK_POWER) as [p|] eqn:Hl.
    + destruct acc as [e tm]. rewrite IH. split.
      * intros [x [Hx Hn]]. exists x. split; [now right|exact Hn].
      * intros [x [[<-|Hx] Hn]]; [congruence|]. exists x. split; assumption.
    + split; [intros _; exists t; split; [now left|exact Hl]|reflexivity].
Qed.

Lemma task_loop_time (tasks : list TaskDict) :
  forall e t e' t', task_loop tasks (e, t) = Some (e', t') ->
  t' = t + fold_right Rplus 0 (map (fun task => Q2R (td_duration_hours task)) tasks).
Proof.
  induction tasks as [|task tasks IH]; intros e t e' t' H; simpl in *.
  - injection H as _ <-. ring.
  - destruct (calculate_task_energy (td_type task) (td_duration_hours task)); [|discriminate].
    rewrite (IH _ _ _ _ H). ring.
Qed.

Lemma movement_loop_traversal (segs : list SegmentDict) :
  Forall (fun s => sd_velocity s = None) segs ->
  forall e t, exists e' t', movement_loop segs (e, t) = Some (e', t') /\
    forall d, exists d', traversal_loop NOMINAL_VELOCITY (map segment_of_dict segs) (e, d, t)
                         = Some (e', d', t').
Proof.
  intros Hall. induction Hall as [|s segs Hs _ IH]; intros e t; simpl.
  - exists e, t. split; [reflexivity|]. intros d. exists d. reflexivity.
  - rewrite Hs. simpl dict_get.
    rewrite energy_consumption_some by (unfold NOMINAL_VELOCITY; rlra).
    cbn iota beta. cbn [energy_kwh distance_m time_hours].
    edestruct IH as [e' [t' [Hm Ht]]]. rewrite Hm.
    exists e', t'. split; [reflexivity|]. intros d.
    destruct (Ht (d + sd_distance s)) as [d' Hd']. exists d'. exact Hd'.
Qed.

(** X6: [estimate_mission_energy] fails (a [ValueError]) exactly when some
    segment's velocity (0.042 m/s when the key is absent) is not positive
    or some task has a type missing from [TASK_POWER]. *)
Theorem estimate_fails_iff (segs : list SegmentDict) (tasks : list TaskDict) :
  estimate_mission_energy segs tasks = None <->
  (exists s, In s segs /\ dict_get (sd_velocity s) NOMINAL_VELOCITY <= 0) \/
  (exists t, In t tasks /\ lookup (td_type t) RoverConfig.TASK_POWER = None).
Proof.
  unfold estimate_mission_energy.
  destruct (movement_loop segs (0, 0)) as [[e t]|] eqn:Hm.
  - assert (Hn : ~ exists s, In s segs /\ dict_get (sd_velocity s) NOMINAL_VELOCITY <= 0)
      by (rewrite <- (movement_loop_none segs (0, 0)); congruence).
    destruct (task_loop tasks (0, t)) as [[e' t']|] eqn:Ht.
    + split; [discriminate|]. intros [H|H]; [contradiction|].
      apply (task_loop_none tasks (0, t)) in H. congruence.
    + split; [intros _; right; now apply (task_loop_none tasks (0, t))|reflexivity].
  - split; [intros _; left; now apply (movement_loop_none segs (0, 0))|reflexivity].
Qed.

(** X7: when every segment dictionary omits ['velocity'], the movement
    energy of [estimate_mission_energy] is the energy that
    [simulate_terrain_traversal] charges for the same segments at its
    default velocity (absent slope and roughness read as 0); the total
    energy is movement plus task energy, and the total time is the
    traversal time plus the task durations. *)
Theorem estimate_matches_traversal (level : R) (segs : list SegmentDict)
  (tasks : list TaskDict) (est : MissionEstimate)
  (Hv : Forall (fun s => sd_velocity s = None) segs)
  (He : estimate_mission_energy segs tasks = Some est) :
  exists summary,
    simulate_terrain_traversal level (map segment_of_dict segs) None = Some summary /\
    movement_energy_kwh est = total_energy_kwh summary /\
    estimate_total_energy_kwh est = movement_energy_kwh est + task_energy_kwh est /\
    estimate_total_time_hours est
      = total_time_hours summary
        + fold_right Rplus 0 (map (fun task => Q2R (td_duration_hours task)) tasks).
Proof.
  destruct (movement_loop_traversal segs Hv 0 0) as [e [t [Hm Htr]]].
  destruct (Htr 0) as [d Hd].
  unfold estimate_mission_energy in He. rewrite Hm in He.
  destruct (task_loop tasks (0, t)) as [[e' t']|] eqn:Ht; [|discriminate].
  injection He as <-.
  unfold simulate_terrain_traversal. rewrite Hd.
  eexists. split; [reflexivity|]. simpl. split; [reflexivity|]. split; [reflexivity|].
  rewrite (task_loop_time tasks 0 t e' t' Ht). ring.
Qed.

Lemma estimate_matches_traversal_witness :
  exists est,
    estimate_mission_energy [mkSegmentDict 100 (Some 5) None None]
      [mkTaskDict "imaging" 1]%string = Some est /\
    exists summary,
      simulate_terrain_traversal 1 (map segment_of_dict [mkSegmentDict 100 (Some 5) None None])
        None = Some summary /\
      movement_energy_kwh est = total_energy_kwh summary /\
      estimate_total_energy_kwh est = movement_energy_kwh est + task_energy_kwh est /\
      estimate_total_time_hours est
        = total_time_hours summary
          + fold_right Rplus 0 (map (fun task => Q2R (td_duration_hours task))
                                 [mkTaskDict "imaging" 1]%string).
Proof.
  assert (He : exists est, estimate_mission_energy [mkSegmentDict 100 (Some 5) None None]
                             [mkTaskDict "imaging" 1]%string = Some est).
  { eexists. unfold estimate_mission_energy. cbn [movement_loop].
    rewrite energy_consumption_some by (cbn; unfold NOMINAL_VELOCITY; rlra).
    reflexivity. }
  destruct He as [est He]. exists est. split; [exact He|].
  apply (estimate_matches_traversal 1 _ _ est); [repeat constructor|exact He].
Defined.
End TerrainFacts.

(** * Effect sizes *)
Module StatsFacts.
Import Stats.
Local Open Scope R_scope.

(** X8: swapping the two groups negates Cohen's d (also when it is 0), so
    the label [interpret_effect_size] gives does not depend on the order
    of the groups. *)
Theorem cohens_d_antisymmetric (group1 group2 : list R) :
  calculate_cohens_d group2 group1 = - calculate_cohens_d group1 group2 /\
  interpret_effect_size (calculate_cohens_d group2 group1)
  = interpret_effect_size (calculate_cohens_d group1 group2).
Proof.
  assert (H : calculate_cohens_d group2 group1 = - calculate_cohens_d group1 group2).
  { unfold calculate_cohens_d. rewrite orb_comm.
    destruct (Nat.eqb (length group1) 0 || Nat.eqb (length group2) 0); [ring|].
    rewrite (Rplus_comm (group_variance group2)).
    destruct (Req_dec_T (sqrt ((group_variance group1 + group_variance group2) / 2)) 0)
      as [_|Hne]; [ring|].
    field. exact Hne. }
  split; [exact H|]. rewrite H. unfold interpret_effect_size. now rewrite Rabs_Ropp.
Qed.
End StatsFacts.

(** * Runs of the mission simulator *)
Module MissionRunFacts.
Import Mission.

Lemma sumQ_acc (l : list Q) : forall a, fold_left Qplus l a == a + sumQ l.
Proof.
  unfold sumQ. induction l as [|x l IH]; intros a; simpl; [qlra|].
  rewrite (IH (a + x)), (IH (0 + x)). qlra.
Qed.

Lemma sumQ_nil : sumQ [] == 0.
Proof. reflexivity. Qed.

Lemma sumQ_cons (x : Q) (l : list Q) : sumQ (x :: l) == x + sumQ l.
Proof. unfold sumQ at 1. simpl. rewrite sumQ_acc. qlra. Qed.

Lemma ratio_bounds (c n : nat) :
  (c <= n)%nat -> (0 < n)%nat ->
  0 <= inject_Z (Z.of_nat c) / inject_Z (Z.of_nat n) <= 1.
Proof.
  intros Hc Hn.
  assert (Hq : 0 < inject_Z (Z.of_nat n)).
  { change (inject_Z 0 < inject_Z (Z.of_nat n)). rewrite <- Zlt_Qlt. lia. }
  split.
  - apply Qle_shift_div_l; [exact Hq|]. rewrite Qmult_0_l.
    change (inject_Z 0 <= inject_Z (Z.of_nat c)). rewrite <- Zle_Qle. lia.
  - apply Qle_shift_div_r; [exact Hq|]. rewrite Qmult_1_l. rewrite <- Zle_Qle. lia.
Qed.

Lemma mission_loop_energy (ts : list Task) :
  forall st done,
  exists added,
    completed_tasks (fst (mission_loop st done ts)) = completed_tasks st ++ added /\
    current_battery_level (fst (mission_loop st done ts))
    == current_battery_level st - sumQ (map energy_cost added) / RoverConfig.BATTERY_CAPACITY.
Proof.
  induction ts as [|t ts IH]; intros st done; simpl.
  - exists []. rewrite app_nil_r. split; [reflexivity|].
    rewrite GreedyFacts.div_capacity. simpl. rewrite sumQ_nil. qlra.
  - destruct (RoverConfig.is_critical_energy (current_battery_level st)).
    + exists []. rewrite app_nil_r. split; [reflexivity|].
      rewrite GreedyFacts.div_capacity. simpl. rewrite sumQ_nil. qlra.
    + unfold execute_task. destruct (can_execute_task st t); simpl.
      * match goal with |- context [mission_loop ?s ?d ts] =>
          destruct (IH s d) as [added [H1 H2]] end.
        cbn [completed_tasks current_battery_level] in H1, H2.
        exists (set_completed t :: added). rewrite H1, <- app_assoc.
        split; [reflexivity|]. rewrite H2. simpl. rewrite sumQ_cons.
        rewrite !GreedyFacts.div_capacity. qlra.
      * match goal with |- context [mission_loop ?s ?d ts] =>
          destruct (IH s d) as [added [H1 H2]] end.
        exists added. split; assumption.
Qed.

Lemma mission_loop_total (ts : list Task) :
  forall st done,
  Forall (fun t => not_processed t = true) ts ->
  Forall (fun t => not_processed t = false) done ->
  (length (completed_tasks (fst (mission_loop st done ts)))
   + length (deferred_tasks (fst (mission_loop st done ts)))
   = length (completed_tasks st) + length (deferred_tasks st) + length ts)%nat.
Proof.
  induction ts as [|t ts IH]; intros st done Hfresh Hdone; simpl; [lia|].
  destruct (RoverConfig.is_critical_energy (current_battery_level st)).
  - simpl. rewrite filter_app, (MissionFacts.filter_processed done Hdone),
      (MissionFacts.filter_fresh (t :: ts) Hfresh).
    rewrite length_app, length_map. simpl. lia.
  - inversion Hfresh as [|? ? Ht Hts]; subst.
    unfold execute_task. destruct (can_execute_task st t); simpl.
    + rewrite IH; [|exact Hts|apply Forall_app; split; [exact Hdone|]].
      2: { constructor; [|constructor]. unfold not_processed. simpl.
           now rewrite ?andb_false_r. }
      simpl. rewrite length_app. simpl. lia.
    + rewrite IH; [|exact Hts|apply Forall_app; split; [exact Hdone|]].
      2: { constructor; [|constructor]. unfold not_processed. simpl.
           now rewrite ?andb_false_r. }
      simpl. rewrite length_app. simpl. lia.
Qed.

Lemma prioritize_length (ts out : list Task) :
  prioritize_tasks ts = Some out -> length out = length ts.
Proof.
  unfold prioritize_tasks.
  destruct (map_option calculate_task_priority ts) as [keyed|] eqn:E; [|discriminate].
  intros H. injection H as <-.
  destruct (PolicyFacts.map_option_keys ts keyed E) as [_ Hf].
  rewrite (Permutation_length (Permutation_map snd (SortFacts.sort_perm keyed))).
  symmetry. exact (Forall2_length Hf).
Qed.

Lemma prioritize_fresh (ts out : list Task) :
  prioritize_tasks ts = Some out ->
  Forall (fun t => not_processed t = true) ts ->
  Forall (fun t => not_processed t = true) out.
Proof.
  unfold prioritize_tasks.
  destruct (map_option calculate_task_priority ts) as [keyed|] eqn:E; [|discriminate].
  intros H Hts. injection H as <-.
  destruct (PolicyFacts.map_option_keys ts keyed E) as [_ Hf].
  eapply Permutation_Forall; [symmetry; apply Permutation_map, SortFacts.sort_perm|].
  clear E. induction Hf as [|t c ts cs [e [_ ->]] _ IH]; [constructor|].
  inversion Hts; subst. constructor; [assumption|now apply IH].
Qed.

Lemma execute_task_reserve (st : MState) (t : Task) :
  RoverConfig.ENERGY_RESERVE_RATIO <= current_battery_level st ->
  RoverConfig.ENERGY_RESERVE_RATIO <= current_battery_level (fst (fst (execute_task st t))).
Proof.
  intros H. unfold execute_task, can_execute_task.
  destruct (RoverConfig.is_critical_energy (current_battery_level st)); simpl; [exact H|].
  destruct (Qle_bool (energy_cost t)
              (RoverConfig.get_available_energy (current_battery_level st))) eqn:Hle;
    simpl; [|exact H].
  apply GreedyFacts.Qle_bool_true in Hle. unfold RoverConfig.get_available_energy in Hle.
  rewrite GreedyFacts.div_capacity.
  destruct (GreedyFacts.pymax_spec 0 (RoverConfig.BATTERY_CAPACITY * current_battery_level st
              - RoverConfig.BATTERY_CAPACITY * RoverConfig.ENERGY_RESERVE_RATIO))
    as [_ [_ [Hm|Hm]]]; rewrite Hm in Hle;
    unfold RoverConfig.BATTERY_CAPACITY, RoverConfig.ENERGY_RESERVE_RATIO in *; qlra.
Qed.

Lemma exec_run_reserve_aux (ts : list Task) :
  forall st,
  RoverConfig.ENERGY_RESERVE_RATIO <= current_battery_level st ->
  RoverConfig.ENERGY_RESERVE_RATIO <= current_battery_level (fst (exec_run st ts)).
Proof.
  induction ts as [|t ts IH]; intros st H; simpl; [exact H|].
  pose proof (execute_task_reserve st t H) as H'.
  destruct (execute_task st t) as [[st' t'] b]. simpl in H'.
  specialize (IH st' H'). destruct (exec_run st' ts). exact IH.
Qed.

Lemma mission_loop_no_halt (ts : list Task) :
  forall st done,
  RoverConfig.ENERGY_RESERVE_RATIO <= current_battery_level st ->
  mission_loop st done ts = (fst (exec_run st ts), done ++ snd (exec_run st ts)).
Proof.
  induction ts as [|t ts IH]; intros st done H; simpl; [now rewrite app_nil_r|].
  replace (RoverConfig.is_critical_energy (current_battery_level st)) with false
    by (symmetry; apply GreedyFacts.Qle_bool_false;
        unfold RoverConfig.ENERGY_RESERVE_RATIO, RoverConfig.CRITICAL_ENERGY_THRESHOLD in *;
        qlra).
  pose proof (execute_task_reserve st t H) as H'.
  destruct (execute_task st t) as [[st' t'] b]. simpl in H'.
  rewrite (IH st' (done ++ [t']) H').
  destruct (exec_run st' ts). simpl. now rewrite <- app_assoc.
Qed.

Lemma exec_run_total (ts : list Task) :
  forall st,
  (length (completed_tasks (fst (exec_run st ts)))
   + length (deferred_tasks (fst (exec_run st ts)))
   = length (completed_tasks st) + length (deferred_tasks st) + length ts)%nat.
Proof.
  induction ts as [|t ts IH]; intros st; simpl; [lia|].
  destruct (execute_task st t) as [[st' t'] b] eqn:Hex.
  specialize (IH st'). destruct (exec_run st' ts) as [s l]. simpl in *. rewrite IH.
  unfold execute_task in Hex. destruct (negb (can_execute_task st t));
    injection Hex as <- _ _; simpl; rewrite length_app; simpl; lia.
Qed.

Lemma mission_loop_checks_reserve (ts : list Task) :
  forall st,
  RoverConfig.ENERGY_RESERVE_RATIO <= current_battery_level st ->
  length (mission_loop_checks st ts) = length ts /\
  Forall (fun s => RoverConfig.ENERGY_RESERVE_RATIO <= current_battery_level s /\
                   RoverConfig.is_critical_energy (current_battery_level s) = false)
         (mission_loop_checks st ts).
Proof.
  induction ts as [|t ts IH]; intros st H; simpl; [split; [reflexivity|constructor]|].
  assert (Hc : RoverConfig.is_critical_energy (current_battery_level st) = false)
    by (apply GreedyFacts.Qle_bool_false;
        unfold RoverConfig.ENERGY_RESERVE_RATIO, RoverConfig.CRITICAL_ENERGY_THRESHOLD in *;
        qlra).
  rewrite Hc.
  pose proof (execute_task_reserve st t H) as H'.
  destruct (execute_task st t) as [[st' t'] b]. simpl in H'.
  destruct (IH st' H') as [IH1 IH2].
  split; [simpl; now rewrite IH1|]. constructor; [split; assumption|exact IH2].
Qed.

(** X9: for a positive energy cost, or above the critical level, the
    feasibility check [can_execute_task] is exactly the budget test
    [energy_cost <= get_available_energy(level)]; the critical-energy
    check only changes the answer for tasks of cost 0 or less.  The
    available energy is 0 at or below the 20% reserve and
    [capacity * (level - 0.20)] at or above it. *)
Theorem can_execute_is_budget_check (st : MState) (t : Task) (b : Q) :
  (b <= RoverConfig.ENERGY_RESERVE_RATIO -> RoverConfig.get_available_energy b == 0) /\
  (RoverConfig.ENERGY_RESERVE_RATIO <= b ->
   RoverConfig.get_available_energy b
   == RoverConfig.BATTERY_CAPACITY * (b - RoverConfig.ENERGY_RESERVE_RATIO)) /\
  ((0 < energy_cost t \/ RoverConfig.CRITICAL_ENERGY_THRESHOLD < current_battery_level st) ->
   can_execute_task st t
   = Qle_bool (energy_cost t) (RoverConfig.get_available_energy (current_battery_level st))).
Proof.
  assert (Hlow : forall b, b <= RoverConfig.ENERGY_RESERVE_RATIO ->
                 RoverConfig.get_available_energy b == 0).
  { intros b' Hb. unfold RoverConfig.get_available_energy.
    destruct (GreedyFacts.pymax_spec 0 (RoverConfig.BATTERY_CAPACITY * b'
                - RoverConfig.BATTERY_CAPACITY * RoverConfig.ENERGY_RESERVE_RATIO))
      as [H1 [H2 [Hm|Hm]]]; rewrite Hm; [reflexivity|].
    unfold RoverConfig.BATTERY_CAPACITY, RoverConfig.ENERGY_RESERVE_RATIO in *. qlra. }
  split; [exact (Hlow b)|]. split.
  - intros Hb. unfold RoverConfig.get_available_energy.
    destruct (GreedyFacts.pymax_spec 0 (RoverConfig.BATTERY_CAPACITY * b
                - RoverConfig.BATTERY_CAPACITY * RoverConfig.ENERGY_RESERVE_RATIO))
      as [H1 [H2 [Hm|Hm]]]; rewrite Hm;
      unfold RoverConfig.BATTERY_CAPACITY, RoverConfig.ENERGY_RESERVE_RATIO in *; qlra.
  - intros Hor. unfold can_execute_task.
    destruct (RoverConfig.is_critical_energy (current_battery_level st)) eqn:Hc;
      [|reflexivity].
    unfold RoverConfig.is_critical_energy in Hc. apply GreedyFacts.Qle_bool_true in Hc.
    destruct Hor as [Hpos|Hgt]; [|qlra].
    symmetry. apply GreedyFacts.Qle_bool_false.
    rewrite (Hlow (current_battery_level st))
      by (unfold RoverConfig.ENERGY_RESERVE_RATIO, RoverConfig.CRITICAL_ENERGY_THRESHOLD in *;
          qlra).
    exact Hpos.
Qed.

Lemma can_execute_is_budget_check_witness :
  RoverConfig.get_available_energy 0.15 == 0 /\
  can_execute_task (mkState 0.05 [] [] []) (set_energy_cost (new_task "T1" "imaging" 1 5 5) 0.03)
  = Qle_bool 0.03 (RoverConfig.get_available_energy 0.05).
Proof.
  split.
  - apply (proj1 (can_execute_is_budget_check (mkState 0.05 [] [] []) (new_task "T1" "imaging" 1 5 5) 0.15)%string).
    vm_compute. intros H. discriminate H.
  - apply (proj2 (proj2 (can_execute_is_budget_check (mkState 0.05 [] [] [])
             (set_energy_cost (new_task "T1" "imaging" 1 5 5) 0.03) 0)))%string.
    left. reflexivity.
Defined.

(** X10: the reported [total_energy_consumed_kwh], computed from the final
    battery level, equals the terrain energy (0 without a terrain file)
    plus [task_energy_kwh], the summed energy of the completed tasks:
    only traversal and completed tasks draw from the battery. *)
Theorem mission_energy_accounting (tasks : list Task) (traversal_energy : option Q)
  (summary : MissionSummary) (st : MState) (final : list Task)
  (Hrun : run_mission_simulation tasks traversal_energy = Some (summary, st, final)) :
  total_energy_consumed_kwh summary
  == match traversal_energy with None => 0 | Some e => e end + task_energy_kwh summary.
Proof.
  unfold run_mission_simulation in Hrun. cbv zeta in Hrun.
  destruct (prioritize_tasks tasks) as [p|]; [|discriminate].
  destruct traversal_energy as [e|];
  match type of Hrun with context [mission_loop ?s [] p] =>
    destruct (mission_loop_energy p s []) as [added [H1 H2]];
    destruct (mission_loop s [] p) as [stf fin] eqn:E end;
  simpl in H1, H2; injection Hrun as <- _ _; simpl; rewrite H1, H2;
  rewrite !GreedyFacts.div_capacity; unfold RoverConfig.BATTERY_CAPACITY; qlra.
Qed.

Lemma mission_energy_accounting_witness :
  exists summary st final,
    run_mission_simulation prio_tasks (Some 0.5) = Some (summary, st, final) /\
    total_energy_consumed_kwh summary == 0.5 + task_energy_kwh summary.
Proof.
  destruct (run_mission_simulation prio_tasks (Some 0.5)) as [[[summary st] final]|] eqn:E;
    [|vm_compute in E; discriminate].
  exists summary, st, final. split; [reflexivity|].
  exact (mission_energy_accounting prio_tasks (Some 0.5) summary st final E).
Defined.

(** X11: when the tasks are fresh (no flag set, as [Task.__init__] leaves
    them), every task is counted exactly once, as completed or as
    deferred: [completed_tasks + deferred_tasks = total_tasks], with or
    without terrain, so the completion rate lies in [0, 1]. *)
Theorem mission_every_task_accounted (tasks : list Task) (traversal_energy : option Q)
  (summary : MissionSummary) (st : MState) (final : list Task)
  (Hfresh : Forall (fun t => not_processed t = true) tasks)
  (Hrun : run_mission_simulation tasks traversal_energy = Some (summary, st, final)) :
  (total_completed summary + total_deferred summary)%nat = total_tasks summary /\
  0 <= completion_rate summary <= 1.
Proof.
  unfold run_mission_simulation in Hrun. cbv zeta in Hrun.
  destruct (prioritize_tasks tasks) as [p|] eqn:Hp; [|discriminate].
  pose proof (prioritize_length tasks p Hp) as Hl.
  pose proof (prioritize_fresh tasks p Hp Hfresh) as Hf.
  match type of Hrun with context [mission_loop ?s [] p] =>
    pose proof (mission_loop_total p s [] Hf (Forall_nil _)) as Ht;
    destruct (mission_loop s [] p) as [stf fin] eqn:E end.
  destruct traversal_energy; simpl in Ht; injection Hrun as <- _ _; simpl;
    (split; [lia|]); destruct (length tasks) as [|n] eqn:Hn;
    try (split; qlra); apply MissionRunFacts.ratio_bounds; lia.
Qed.

Lemma mission_every_task_accounted_witness :
  exists summary st final,
    run_mission_simulation prio_tasks (Some 0.5) = Some (summary, st, final) /\
    (total_completed summary + total_deferred summary)%nat = total_tasks summary /\
    0 <= completion_rate summary <= 1.
Proof.
  destruct (run_mission_simulation prio_tasks (Some 0.5)) as [[[summary st] final]|] eqn:E;
    [|vm_compute in E; discriminate].
  exists summary, st, final. split; [reflexivity|].
  apply (mission_every_task_accounted prio_tasks (Some 0.5) summary st final); [|exact E].
  repeat constructor.
Defined.

(** X12: without a terrain file the critical-energy halt never fires:
    the loop evaluates its critical check once per prioritized task, the
    battery level is at least the 20% reserve every time (so above the
    10% critical threshold, and the check is false), the loop therefore
    runs [execute_task] on every task, the final battery level is at
    least 0.20, and every task, fresh or not, is counted once as
    completed or deferred. *)
Theorem mission_without_terrain_never_halts (tasks : list Task)
  (summary : MissionSummary) (st : MState) (final : list Task)
  (Hrun : run_mission_simulation tasks None = Some (summary, st, final)) :
  exists prioritized, prioritize_tasks tasks = Some prioritized /\
    length (mission_loop_checks (mkState 1.0 [] [] []) prioritized) = length prioritized /\
    Forall (fun s => RoverConfig.ENERGY_RESERVE_RATIO <= current_battery_level s /\
                     RoverConfig.is_critical_energy (current_battery_level s) = false)
           (mission_loop_checks (mkState 1.0 [] [] []) prioritized) /\
    (st, final) = exec_run (mkState 1.0 [] [] []) prioritized /\
    RoverConfig.ENERGY_RESERVE_RATIO <= final_battery_level summary /\
    (total_completed summary + total_deferred summary)%nat = total_tasks summary.
Proof.
  unfold run_mission_simulation in Hrun. cbv zeta in Hrun.
  destruct (prioritize_tasks tasks) as [p|] eqn:Hp; [|discriminate].
  pose proof (prioritize_length tasks p Hp) as Hl.
  assert (H0 : RoverConfig.ENERGY_RESERVE_RATIO <= current_battery_level (mkState 1.0 [] [] []))
    by (unfold RoverConfig.ENERGY_RESERVE_RATIO; simpl; qlra).
  destruct (mission_loop_checks_reserve p _ H0) as [Hc1 Hc2].
  rewrite (mission_loop_no_halt p _ [] H0) in Hrun.
  pose proof (exec_run_total p (mkState 1.0 [] [] [])) as Ht.
  pose proof (exec_run_reserve_aux p (mkState 1.0 [] [] []) H0) as Hr.
  exists p. split; [reflexivity|]. split; [exact Hc1|]. split; [exact Hc2|].
  destruct (exec_run (mkState 1.0 [] [] []) p) as [stf fin] eqn:E.
  simpl in Hrun, Ht, Hr. injection Hrun as <- <- <-. simpl.
  split; [reflexivity|]. split; [exact Hr|]. lia.
Qed.

Lemma mission_without_terrain_never_halts_witness :
  exists summary st final,
    run_mission_simulation prio_tasks None = Some (summary, st, final) /\
    RoverConfig.ENERGY_RESERVE_RATIO <= final_battery_level summary /\
    (total_completed summary + total_deferred summary)%nat = total_tasks summary.
Proof.
  destruct (run_mission_simulation prio_tasks None) as [[[summary st] final]|] eqn:E;
    [|vm_compute in E; discriminate].
  exists summary, st, final. split; [reflexivity|].
  destruct (mission_without_terrain_never_halts prio_tasks summary st final E)
    as [p [_ [_ [_ [_ [H1 H2]]]]]].
  split; assumption.
Defined.
End MissionRunFacts.

(** * The benchmark harness: policies, execution, metrics and scenarios *)
Module HarnessFacts.
Import SimpleValidation.

Section RevSort.
Context {A : Type}.
Variable f : A -> Q.

Lemma SSorted_app_last (S : A -> A -> Prop) (l : list A) (x : A) :
  StronglySorted S l -> Forall (fun y => S y x) l -> StronglySorted S (l ++ [x]).
Proof.
  induction 1 as [|y l Hl IH Hy]; intros Hx; simpl.
  - repeat constructor.
  - inversion Hx as [|? ? Hyx Hlx]; subst. constructor; [now apply IH|].
    apply Forall_app; split; [exact Hy|now constructor].
Qed.

Lemma SSorted_rev (S : A -> A -> Prop) (l : list A) :
  StronglySorted S l -> StronglySorted (fun a b => S b a) (rev l).
Proof.
  induction 1 as [|y l Hl IH Hy]; simpl; [constructor|].
  apply SSorted_app_last; [exact IH|]. now apply Forall_rev.
Qed.

Lemma py_sorted_rev_spec (xs : list A) :
  Sorted (fun a b => f b <= f a) (py_sorted_rev f xs) /\
  Permutation (py_sorted_rev f xs) xs /\
  (forall q, filter (fun x => Qeq_bool (f x) q) (py_sorted_rev f xs)
           = filter (fun x => Qeq_bool (f x) q) xs).
Proof.
  unfold py_sorted_rev. destruct (SortFacts.py_sorted_spec f (rev xs)) as [Hs [Hp Hf]].
  split; [|split].
  - apply StronglySorted_Sorted. apply (SSorted_rev (fun a b => f a <= f b)).
    apply Sorted_StronglySorted; [|exact Hs].
    intros a b c H1 H2. eapply Qle_trans; eassumption.
  - rewrite <- (Permutation_rev (py_sorted f (rev xs))), Hp.
    symmetry. apply Permutation_rev.
  - intros q. rewrite filter_rev, Hf, filter_rev, rev_involutive. reflexivity.
Qed.
End RevSort.

Lemma total_energy_nonneg (l : list SVTask) :
  Forall (fun t => 0 <= energy t) l -> 0 <= total_energy_of l.
Proof.
  induction 1 as [|t l Ht _ IH]; [rewrite PolicyFacts.total_energy_nil; qlra|].
  rewrite PolicyFacts.total_energy_cons. qlra.
Qed.

Lemma exec_fold_inv (l : list SVTask) :
  forall c u x y, 0 <= u ->
  let '(c', u', x', y') := fold_left exec_step l (c, u, x, y) in
  exists added, c' = c ++ added /\ u' == u - total_energy_of added /\
    x' == x + total_energy_of added /\ y' == y + Mission.sumQ (map reward added) /\
    0 <= u' /\ incl added l /\ (length added <= length l)%nat.
Proof.
  induction l as [|t l IH]; intros c u x y Hu; cbn [fold_left].
  - exists []. rewrite app_nil_r, PolicyFacts.total_energy_nil. cbn [map].
    rewrite MissionRunFacts.sumQ_nil.
    repeat split; try qlra; [apply incl_refl|simpl; lia].
  - unfold exec_step at 2. destruct (Qle_bool (energy t) u) eqn:E.
    + apply GreedyFacts.Qle_bool_true in E.
      specialize (IH (c ++ [t]) (u - energy t) (x + energy t) (y + reward t) ltac:(qlra)).
      destruct (fold_left exec_step l (c ++ [t], u - energy t, x + energy t, y + reward t))
        as [[[c' u'] x'] y'].
      destruct IH as [added [H1 [H2 [H3 [H4 [H5 [H6 H7]]]]]]].
      exists (t :: added). rewrite H1, <- app_assoc.
      rewrite PolicyFacts.total_energy_cons. simpl map. rewrite MissionRunFacts.sumQ_cons.
      repeat split; try qlra.
      * apply incl_cons; [now left|]. now apply incl_tl.
      * simpl. lia.
    + specialize (IH c u x y Hu).
      destruct (fold_left exec_step l (c, u, x, y)) as [[[c' u'] x'] y'].
      destruct IH as [added [H1 [H2 [H3 [H4 [H5 [H6 H7]]]]]]].
      exists added. repeat split; try assumption.
      * now apply incl_tl.
      * simpl. lia.
Qed.

Lemma simulate_inv (ordered_tasks : list SVTask) (lvl : Q) :
  let r := simulate_task_execution ordered_tasks lvl in
  total_energy_of (completed_tasks r) <= usable_energy_for lvl /\
  total_energy r == terrain_energy + total_energy_of (completed_tasks r) /\
  total_reward r == Mission.sumQ (map reward (completed_tasks r)) /\
  incl (completed_tasks r) ordered_tasks /\
  (length (completed_tasks r) <= length ordered_tasks)%nat.
Proof.
  unfold simulate_task_execution.
  assert (Hu : 0 <= usable_energy_for lvl).
  { unfold usable_energy_for. apply GreedyFacts.pymax_spec. }
  pose proof (exec_fold_inv ordered_tasks [] (usable_energy_for lvl) terrain_energy 0 Hu) as H.
  destruct (fold_left exec_step ordered_tasks ([], usable_energy_for lvl, terrain_energy, 0))
    as [[[c u] x] y].
  destruct H as [added [H1 [H2 [H3 [H4 [H5 [H6 H7]]]]]]]. simpl in H1. subst c. simpl.
  repeat split; [qlra|exact H3|qlra|exact H6|exact H7].
Qed.

(** X13: every deterministic baseline policy of the harness returns a
    permutation of its input sorted by its key, and tasks with equal keys
    keep their input order: [energy_greedy_scheduler] ascending by
    energy, [urgency_first_scheduler] descending by urgency and
    [wspt_scheduler] descending by [reward / max(duration, 0.01)]. *)
Theorem baseline_policies_sorted (ts : list SVTask) :
  (Sorted (fun a b => energy a <= energy b) (energy_greedy_scheduler ts) /\
   Permutation (energy_greedy_scheduler ts) ts /\
   (forall q, filter (fun x => Qeq_bool (energy x) q) (energy_greedy_scheduler ts)
            = filter (fun x => Qeq_bool (energy x) q) ts)) /\
  (Sorted (fun a b => urgency b <= urgency a) (urgency_first_scheduler ts) /\
   Permutation (urgency_first_scheduler ts) ts /\
   (forall q, filter (fun x => Qeq_bool (urgency x) q) (urgency_first_scheduler ts)
            = filter (fun x => Qeq_bool (urgency x) q) ts)) /\
  (Sorted (fun a b => wspt_key b <= wspt_key a) (wspt_scheduler ts) /\
   Permutation (wspt_scheduler ts) ts /\
   (forall q, filter (fun x => Qeq_bool (wspt_key x) q) (wspt_scheduler ts)
            = filter (fun x => Qeq_bool (wspt_key x) q) ts)).
Proof.
  split; [apply SortFacts.py_sorted_spec|].
  split; apply py_sorted_rev_spec.
Qed.

(** X14: the harness never spends more than the usable energy: the
    completed tasks are taken from the ordered list, their energies sum
    to at most [usable_energy], the reported [total_energy] is the fixed
    0.061 kWh terrain energy plus that sum, and [total_reward] is the sum
    of their rewards. *)
Theorem harness_spends_within_budget (ordered_tasks : list SVTask) (lvl : Q) :
  let r := simulate_task_execution ordered_tasks lvl in
  total_energy_of (completed_tasks r) <= usable_energy_for lvl /\
  total_energy r == terrain_energy + total_energy_of (completed_tasks r) /\
  total_reward r == Mission.sumQ (map reward (completed_tasks r)) /\
  incl (completed_tasks r) ordered_tasks.
Proof.
  destruct (simulate_inv ordered_tasks lvl) as [H1 [H2 [H3 [H4 _]]]].
  repeat split; assumption.
Qed.

(** X15: [run_single_algorithm_test] raises [ZeroDivisionError] exactly for
    a scenario without tasks.  For a policy that keeps the number of
    tasks, the completion rate lies in [0, 100]; when the ordered tasks'
    energies are non-negative, [energy_used] is at least the 0.061 kWh
    terrain energy, so the 0.001 floor of the efficiency never applies
    and the efficiency is [total_reward / energy_used]. *)
Theorem single_test_metrics (algorithm_func : list SVTask -> list SVTask) (sc : Scenario) :
  (run_single_algorithm_test algorithm_func sc = None <-> tasks sc = []) /\
  (length (algorithm_func (tasks sc)) = length (tasks sc) ->
   forall r, run_single_algorithm_test algorithm_func sc = Some r ->
   0 <= completion_rate r <= 100) /\
  (Forall (fun t => 0 <= energy t) (algorithm_func (tasks sc)) ->
   forall r, run_single_algorithm_test algorithm_func sc = Some r ->
   terrain_energy <= energy_used r /\ efficiency r == test_total_reward r / energy_used r).
Proof.
  unfold run_single_algorithm_test.
  destruct (simulate_inv (algorithm_func (tasks sc)) (energy_level sc))
    as [_ [Hx [_ [Hincl Hlen]]]].
  set (res := simulate_task_execution (algorithm_func (tasks sc)) (energy_level sc)) in *.
  split; [|split].
  - destruct (tasks sc); simpl; split; intros H; try reflexivity; discriminate H.
  - intros Hl r Hr. destruct (length (tasks sc)) as [|n] eqn:Hn; [discriminate|].
    injection Hr as <-. cbn [completion_rate].
    destruct (MissionRunFacts.ratio_bounds (length (completed_tasks res)) (S n))
      as [B1 B2]; [lia|lia|].
    change (Z.pos (Pos.of_succ_nat n)) with (Z.of_nat (S n)).     split; qlra.
  - intros Hpos r Hr. destruct (length (tasks sc)) as [|n]; [discriminate|].
    injection Hr as <-. simpl.
    assert (He : 0 <= total_energy_of (completed_tasks res)).
    { apply total_energy_nonneg. eapply incl_Forall; eassumption. }
    assert (Ht : terrain_energy <= total_energy res) by qlra.
    split; [exact Ht|].
    assert (Hm : pymax (total_energy res) 0.001 == total_energy res).
    { unfold pymax. destruct (Qlt_le_dec (total_energy res) 0.001); [|reflexivity].
      unfold terrain_energy in Ht. qlra. }
    now rewrite Hm.
Qed.

Lemma single_test_metrics_witness :
  exists r,
    run_single_algorithm_test energy_greedy_scheduler (mkScenario 0.15 [feas_sv_task]) = Some r /\
    0 <= completion_rate r <= 100 /\
    terrain_energy <= energy_used r /\ efficiency r == test_total_reward r / energy_used r.
Proof.
  destruct (run_single_algorithm_test energy_greedy_scheduler (mkScenario 0.15 [feas_sv_task]))
    as [r|] eqn:E; [|vm_compute in E; discriminate].
  exists r. split; [reflexivity|]. split.
  - apply (proj1 (proj2 (single_test_metrics energy_greedy_scheduler
                          (mkScenario 0.15 [feas_sv_task])))); [reflexivity|exact E].
  - apply (proj2 (proj2 (single_test_metrics energy_greedy_scheduler
                          (mkScenario 0.15 [feas_sv_task])))); [|exact E].
    vm_compute. constructor; [intros H; discriminate H|constructor].
Defined.
Lemma make_tasks_shape (ds : list TaskDraw) :
  forall i ts, make_tasks i ds = Some ts ->
  map SimpleValidation.id ts = seq (S i) (length ds) /\
  Forall (fun t => power_map (type_index t) = Some (power t) /\
                   energy t == power t * duration t / 1000) ts.
Proof.
  induction ds as [|d ds IH]; intros i ts H; cbn [make_tasks] in H.
  - injection H as <-. split; constructor.
  - unfold make_task in H.
    destruct (power_map (draw_type_index d)) as [p|] eqn:Ep; [|discriminate].
    destruct (make_tasks (S i) ds) as [ts'|] eqn:E; [|discriminate].
    injection H as <-. destruct (IH (S i) ts' E) as [H1 H2].
    split; [simpl; now rewrite H1|]. constructor; [|exact H2].
    simpl. split; [exact Ep|reflexivity].
Qed.

(** X16: a scenario generated from in-range draws has an energy level in
    [0.05, 0.20), task ids 1, 2, ..., num_tasks in order, and every task's
    power is the [power_map] entry of its type and its energy is
    [power * duration / 1000], also after the rescaling (which multiplies
    duration and energy by the same factor). *)
Theorem generated_tasks_well_formed (r_level : Q) (draws : list TaskDraw)
  (Hr : 0 <= r_level < 1) (Hd : Forall PolicyFacts.draw_ok draws) :
  exists sc, generate_random_scenario r_level draws = Some sc /\
    0.05 <= energy_level sc < 0.20 /\
    map SimpleValidation.id (tasks sc) = seq 1 (length draws) /\
    Forall (fun t => power_map (type_index t) = Some (power t) /\
                     energy t == power t * duration t / 1000) (tasks sc).
Proof.
  destruct (PolicyFacts.make_tasks_ok draws 0 Hd) as [ts [Hts _]].
  destruct (make_tasks_shape draws 0 ts Hts) as [Hid Hwf].
  unfold generate_random_scenario. rewrite Hts.
  destruct (Qle_bool _ _); eexists; (split; [reflexivity|]);
    cbn [energy_level tasks]; (split; [split; qlra|]).
  - split; [rewrite map_map; exact Hid|].
    apply Forall_map. eapply Forall_impl; [|exact Hwf].
    intros t [Hp He]. simpl. split; [exact Hp|]. rewrite He. unfold Qdiv. ring.
  - split; assumption.
Qed.

(** X17: the generator's rescaling: when the drawn tasks' total energy is
    at most twice the usable energy, the tasks are rescaled so that their
    total energy is exactly three times the usable energy; otherwise the
    drawn tasks are kept unchanged (and their total exceeds twice the
    usable energy).  The 0.1 floor of the divisor never applies to the
    at least 12 tasks the generator draws. *)
Theorem generated_scenario_rescaling (r_level : Q) (draws : list TaskDraw)
  (Hn : (12 <= length draws)%nat) (Hd : Forall PolicyFacts.draw_ok draws) :
  exists ts sc, make_tasks 0 draws = Some ts /\
    generate_random_scenario r_level draws = Some sc /\
    (total_energy_of ts <= usable_energy_for (energy_level sc) * 2 ->
     total_energy_of (tasks sc) == usable_energy_for (energy_level sc) * 3) /\
    (usable_energy_for (energy_level sc) * 2 < total_energy_of ts -> tasks sc = ts).
Proof.
  destruct (PolicyFacts.make_tasks_ok draws 0 Hd) as [ts [Hts [Hl Hf]]].
  assert (Htot : 0.3 <= total_energy_of ts).
  { pose proof (PolicyFacts.total_energy_lower ts Hf 12 ltac:(lia)) as H.
    change (inject_Z (Z.of_nat 12)) with 12 in H. qlra. }
  exists ts. set (lvl := 0.05 + r_level * 0.15).
  unfold generate_random_scenario. fold lvl. rewrite Hts.
  destruct (Qle_bool (total_energy_of ts) (usable_energy_for lvl * 2)) eqn:E.
  - eexists. split; [reflexivity|]. split; [reflexivity|]. cbn [energy_level tasks].
    apply GreedyFacts.Qle_bool_true in E. split.
    + intros _. rewrite PolicyFacts.total_energy_scale.
      unfold pymax. destruct (Qlt_le_dec (total_energy_of ts) 0.1) as [Hlt|_]; [qlra|].
      field. qlra.
    + intros Hlt. exfalso. qlra.
  - eexists. split; [reflexivity|]. split; [reflexivity|]. cbn [energy_level tasks].
    apply GreedyFacts.Qle_bool_false in E. split.
    + intros Hle. exfalso. qlra.
    + reflexivity.
Qed.

Lemma twelve_draws_ok : Forall PolicyFacts.draw_ok (repeat (mkDraw 1 0 0 0) 12).
Proof.
  apply Forall_forall. intros d Hd. apply repeat_spec in Hd. subst d.
  unfold PolicyFacts.draw_ok. simpl. repeat split; qlra || lia.
Qed.

Lemma generated_tasks_well_formed_witness :
  exists sc, generate_random_scenario 0.5 (repeat (mkDraw 1 0 0 0) 12) = Some sc /\
    0.05 <= energy_level sc < 0.20 /\
    map SimpleValidation.id (tasks sc) = seq 1 12 /\
    Forall (fun t => power_map (type_index t) = Some (power t) /\
                     energy t == power t * duration t / 1000) (tasks sc).
Proof.
  apply (generated_tasks_well_formed 0.5 (repeat (mkDraw 1 0 0 0) 12));
    [split; qlra|exact twelve_draws_ok].
Defined.

Lemma generated_scenario_rescaling_witness :
  exists ts sc, make_tasks 0 (repeat (mkDraw 1 0 0 0) 12) = Some ts /\
    generate_random_scenario 0.5 (repeat (mkDraw 1 0 0 0) 12) = Some sc /\
    (total_energy_of ts <= usable_energy_for (energy_level sc) * 2 ->
     total_energy_of (tasks sc) == usable_energy_for (energy_level sc) * 3) /\
    (usable_energy_for (energy_level sc) * 2 < total_energy_of ts -> tasks sc = ts).
Proof.
  apply (generated_scenario_rescaling 0.5 (repeat (mkDraw 1 0 0 0) 12));
    [simpl; lia|exact twelve_draws_ok].
Defined.
End HarnessFacts.
